(** * Mixed precision ResNet-50 training loop: orchestration model

    A shallow embedding of [examples/pytorch_resnet50_training.py].

    The script only orchestrates calls into PyTorch and torchvision.  The
    embedding keeps the control flow of every function of the script
    (the dataset-layout check, the per-batch training iteration, the
    evaluation pass, the checkpoint-on-improvement policy, the checkpoint
    writer) and takes the numerical primitives of the framework as the
    fields of a type class.  Python floats are modelled by rationals [Q]:
    losses and accuracies are exact, and only their order, their averages and
    their three-decimal rendering matter below. *)

From Stdlib Require Import ZArith QArith Qround List String Ascii Lia Bool.
From Stdlib Require Import DecimalString DecimalN DecimalPos.
From stdpp Require Import gmap strings sorting.

Local Open Scope Z_scope.

(** ** Python values: exceptions and results *)

Inductive exn : Type :=
  | FileNotFoundError (msg : string)
  | FileExistsError (msg : string)
  | NotADirectoryError (msg : string)
  | IsADirectoryError (msg : string)
  | ZeroDivisionError (msg : string)
  | ValueError (msg : string)
  | RuntimeError (msg : string)
  | KeyError (key : string).

Inductive result (A : Type) : Type :=
  | Ok (a : A)
  | Raise (e : exn).
Arguments Ok {A} a.
Arguments Raise {A} e.

Definition is_ok {A} (r : result A) : bool :=
  match r with Ok _ => true | Raise _ => false end.

(** [x / n] on a float [x] and an int [n]: Python raises on a zero divisor. *)
Definition py_truediv (x : Q) (n : Z) : result Q :=
  if n =? 0 then Raise (ZeroDivisionError "float division by zero")
  else Ok (x / inject_Z n)%Q.

(** ** Format specifications used by the script *)

Module Fmt.

Definition str_of_N (n : N) : string :=
  NilEmpty.string_of_uint (N.to_uint n).

Fixpoint zeros (k : nat) : string :=
  match k with O => EmptyString | S k' => String "0" (zeros k') end.

(** Left padding with ['0'] up to width [w], as the [0w] flag does. *)
Definition zfill (w : nat) (s : string) : string :=
  String.append (zeros (w - String.length s)) s.

(** [{e:03d}]. *)
Definition d03 (e : Z) : string :=
  if e <? 0 then String "-" (zfill 2 (str_of_N (Z.abs_N e)))
  else zfill 3 (str_of_N (Z.to_N e)).

(** Rounding to the nearest integer, ties to even. *)
Definition round_half_even (q : Q) : Z :=
  let n := Qnum q in
  let d := Zpos (Qden q) in
  let f := n / d in
  let r2 := 2 * (n mod d) in
  if r2 <? d then f
  else if d <? r2 then f + 1
  else if Z.even f then f else f + 1.

(** Thousandths of [m] as the [.3f] conversion rounds them. *)
Definition thousandths (m : Q) : Z := round_half_even (m * 1000)%Q.

Definition f3_abs (m : Q) : string :=
  let r := thousandths m in
  String.append (str_of_N (Z.to_N (r / 1000)))
    (String "." (zfill 3 (str_of_N (Z.to_N (r mod 1000))))).

(** [{m:.3f}]. *)
Definition f3 (m : Q) : string :=
  if Qnum m <? 0 then String "-" (f3_abs (- m)%Q) else f3_abs m.

(** Reading back: the longest prefix of decimal digits. *)
Definition is_digit (c : ascii) : bool :=
  match c with
  | "0" | "1" | "2" | "3" | "4" | "5" | "6" | "7" | "8" | "9" => true
  | _ => false
  end%char.

Fixpoint span_digits (s : string) : string * string :=
  match s with
  | EmptyString => (EmptyString, EmptyString)
  | String c s' =>
      if is_digit c then
        let '(ds, rest) := span_digits s' in (String c ds, rest)
      else (EmptyString, s)
  end.

(** A string of digits only; a string that ends a run of digits. *)
Fixpoint all_digits (s : string) : bool :=
  match s with
  | EmptyString => true
  | String c s' => is_digit c && all_digits s'
  end.

Definition stops (s : string) : Prop :=
  match s with
  | EmptyString => True
  | String c _ => is_digit c = false
  end.

Definition N_of_digits (s : string) : option N :=
  match s with
  | EmptyString => None
  | _ => option_map N.of_uint (NilEmpty.uint_of_string s)
  end.

Fixpoint strip_prefix (p s : string) : option string :=
  match p, s with
  | EmptyString, _ => Some s
  | String a p', String b s' =>
      if Ascii.eqb a b then strip_prefix p' s' else None
  | String _ _, EmptyString => None
  end.

End Fmt.

(** ** The file system

    A path is the list of its components; the empty path is the working
    directory.  The store maps every existing path to its node. *)

(** What a file holds: an image, or a pickled dictionary as [torch.save]
    writes it, or anything else. *)
Inductive pyval (P O : Type) : Type :=
  | VInt (z : Z)
  | VFloat (q : Q)
  | VStateDict (p : P)
  | VOptimizerState (o : O).
Arguments VInt {P O} z.
Arguments VFloat {P O} q.
Arguments VStateDict {P O} p.
Arguments VOptimizerState {P O} o.

Inductive content (I P O : Type) : Type :=
  | Image (i : I)
  | Pickle (d : gmap string (pyval P O))
  | Blob.
Arguments Image {I P O} i.
Arguments Pickle {I P O} d.
Arguments Blob {I P O}.

Inductive node (C : Type) : Type :=
  | Dir
  | File (c : C).
Arguments Dir {C}.
Arguments File {C} c.

Definition str_of_path (p : list string) : string :=
  match p with
  | [] => "."
  | _ => String.concat "/" p
  end.

Section FileSystem.
Context {C : Type}.
Implicit Types (fs : gmap (list string) (node C)) (p : list string).

(** [Path.is_dir()]. *)
Definition is_dir fs p : bool :=
  match p with
  | [] => true
  | _ => match fs !! p with Some Dir => true | _ => false end
  end.

(** [Path.mkdir(parents=True, exist_ok=True)]: walk down from the root of
    the path, creating what is missing; an existing directory is accepted
    at every level, a file in the way is an error. *)
Fixpoint mkdir_from fs (done : list string) (todo : list string)
    : result (gmap (list string) (node C)) :=
  match todo with
  | [] => Ok fs
  | s :: rest =>
      let p := done ++ [s] in
      match fs !! p with
      | Some Dir => mkdir_from fs p rest
      | Some (File _) =>
          Raise (match rest with
                 | [] => FileExistsError (str_of_path p)
                 | _ => NotADirectoryError (str_of_path p)
                 end)
      | None => mkdir_from (<[p := Dir]> fs) p rest
      end
  end.

Definition mkdir_parents_exist_ok fs p := mkdir_from fs [] p.

(** Writing a regular file: the parent must be a directory and the target
    must not be one. *)
Definition write_file fs p (c : C) : result (gmap (list string) (node C)) :=
  match fs !! p with
  | Some Dir => Raise (IsADirectoryError (str_of_path p))
  | _ =>
      if is_dir fs (removelast p) then Ok (<[p := File c]> fs)
      else Raise (FileNotFoundError (str_of_path p))
  end.

(** The entry name of [q] when [q] lies directly inside [p]. *)
Fixpoint entry_in p (q : list string) : option string :=
  match p, q with
  | [], [s] => Some s
  | a :: p', b :: q' => if String.eqb a b then entry_in p' q' else None
  | _, _ => None
  end.

Definition str_le (a b : string) : Prop := String.leb a b = true.

#[global] Instance str_le_dec (a b : string) : Decision (str_le a b).
Proof. unfold str_le. apply _. Defined.

(** Names of the sub-directories of [p], in sorted order. *)
Definition subdirs fs p : list string :=
  merge_sort str_le
    (omap (fun '(q, n) =>
             match n with Dir => entry_in p q | File _ => None end)
          (map_to_list fs)).

(** [q] lies strictly below [p]. *)
Fixpoint below p (q : list string) : bool :=
  match p, q with
  | [], _ :: _ => true
  | a :: p', b :: q' => String.eqb a b && below p' q'
  | _, _ => false
  end.

(** The order of a sorted walk: by directory, then by file name. *)
Definition walk_le (a b : list string * C) : Prop :=
  let da := str_of_path (removelast a.1) in
  let db := str_of_path (removelast b.1) in
  (String.ltb da db
   || (String.eqb da db
       && String.leb (List.last a.1 EmptyString) (List.last b.1 EmptyString)))
  = true.

#[global] Instance walk_le_dec (a b : list string * C) : Decision (walk_le a b).
Proof. unfold walk_le. apply _. Defined.

(** Regular files anywhere below [p], in the order of a sorted walk. *)
Definition files_under fs p : list (list string * C) :=
  merge_sort walk_le
    (omap (fun '(q, n) =>
             match n with
             | File c => if below p q then Some (q, c) else None
             | Dir => None
             end)
          (map_to_list fs)).
End FileSystem.

(** ** A state and exception monad for the effectful functions *)

Definition M (S A : Type) : Type := S -> result A * S.

#[global] Instance M_ret {S} : MRet (M S) := fun A a s => (Ok a, s).
#[global] Instance M_bind {S} : MBind (M S) := fun A B f m s =>
  match m s with
  | (Ok a, s') => f a s'
  | (Raise e, s') => (Raise e, s')
  end.

Definition raise {S A} (e : exn) : M S A := fun s => (Raise e, s).
Definition gets {S A} (f : S -> A) : M S A := fun s => (Ok (f s), s).
Definition modify {S} (f : S -> S) : M S unit := fun s => (Ok tt, f s).
Definition lift_result {S A} (r : result A) : M S A := fun s => (r, s).

(** A [for] loop over a list threading an accumulator. *)
Fixpoint for_each {S A B} (body : B -> A -> M S B) (l : list A) (acc : B)
    : M S B :=
  match l with
  | [] => mret acc
  | x :: l' => acc' ← body acc x; for_each body l' acc'
  end.

(** ** Configuration *)

Record TrainConfig : Type := {
  data_root : list string;
  batch_size : Z;
  num_workers : Z;
  epochs : Z;
  learning_rate : Q;
  weight_decay : Q;
  seed : Z;
  output_dir : list string;
  log_every : Z;
  num_classes : option Z
}.

Definition default_config (root : list string) : TrainConfig := {|
  data_root := root;
  batch_size := 64;
  num_workers := 8;
  epochs := 20;
  learning_rate := 5 # 10000;
  weight_decay := 1 # 100;
  seed := 17;
  output_dir := ["artifacts"; "checkpoints"]%string;
  log_every := 25;
  num_classes := None
|}.

(** ** [parse_args]

    The command line as [argparse] hands it over: the required dataset root
    and, for every other option, its value when the option is present. *)
Record CommandLine : Type := {
  arg_data_root : list string;
  arg_epochs : option Z;
  arg_batch_size : option Z;
  arg_num_workers : option Z;
  arg_lr : option Q;
  arg_weight_decay : option Q;
  arg_seed : option Z;
  arg_output_dir : option (list string)
}.

Definition or_default {A} (d : A) (x : option A) : A :=
  match x with Some a => a | None => d end.

(** The options take the defaults of the parser; [log_every] and
    [num_classes], which the parser does not know, take those of the
    dataclass. *)
Definition parse_args (a : CommandLine) : TrainConfig := {|
  data_root := arg_data_root a;
  epochs := or_default 20 (arg_epochs a);
  batch_size := or_default 64 (arg_batch_size a);
  num_workers := or_default 8 (arg_num_workers a);
  learning_rate := or_default (5 # 10000) (arg_lr a);
  weight_decay := or_default (1 # 100) (arg_weight_decay a);
  seed := or_default 17 (arg_seed a);
  output_dir := or_default ["artifacts"; "checkpoints"]%string (arg_output_dir a);
  log_every := 25;
  num_classes := None
|}.

Definition only_data_root (root : list string) : CommandLine := {|
  arg_data_root := root;
  arg_epochs := None; arg_batch_size := None; arg_num_workers := None;
  arg_lr := None; arg_weight_decay := None; arg_seed := None;
  arg_output_dir := None
|}.

(** [x or d] on an optional int: [None] and [0] are both falsy. *)
Definition py_or (x : option Z) (d : Z) : Z :=
  match x with
  | Some k => if k =? 0 then d else k
  | None => d
  end.

(** [a % b] on ints. *)
Definition py_mod (a b : Z) : result Z :=
  if b =? 0 then Raise (ZeroDivisionError "integer modulo by zero")
  else Ok (a mod b).

(** [a > b] on floats. *)
Definition py_gt (a b : Q) : bool := negb (Qle_bool a b).

(** ** The metadata of the pretrained weights

    [ResNet50_Weights.IMAGENET1K_V2.meta], after torchvision: a dictionary
    with the keys below and no other.  The normalisation statistics are not
    among them; torchvision keeps them in the transforms preset of the
    weights. *)
Inductive meta_value : Type :=
  | MetaNumber (n : Z)
  | MetaOther.

Definition IMAGENET1K_V2_meta : gmap string meta_value :=
  list_to_map
    [ ("min_size", MetaOther); ("categories", MetaOther);
      ("num_params", MetaNumber 25557032); ("recipe", MetaOther);
      ("_metrics", MetaOther); ("_ops", MetaOther);
      ("_file_size", MetaOther); ("_docs", MetaOther) ]%string.

(** [d[k]] on a dictionary: a missing key raises. *)
Definition dict_getitem {V} (d : gmap string V) (k : string) : result V :=
  match d !! k with
  | Some v => Ok v
  | None => Raise (KeyError k)
  end.

(** ** The numerical framework

    What the script delegates to PyTorch.  [forward] returns the logits and
    the state after the pass (buffers move in training mode); in evaluation
    mode a pass leaves the state as it was. *)

Class Framework : Type := {
  image : Type;
  params : Type;
  grads : Type;
  opt_state : Type;
  cuda_is_available : bool;
  resnet50_with_head : Z -> params;
  forward : params -> bool -> list image -> list (list Q) * params;
  forward_eval : forall p x, snd (forward p false x) = p;
  cross_entropy : list (list Q) -> list nat -> Q;
  backward : params -> list image -> list nat -> Q -> grads;
  grad_accumulate : grads -> grads -> grads;
  unscale_grads : Q -> grads -> grads;
  clip_grad_norm : Q -> grads -> grads;
  scaler_step : opt_state -> params -> grads -> opt_state * params;
  scaler_update : Q -> grads -> Q;
  adamw : params -> Q -> Q -> opt_state;
  current_lr : opt_state -> Q;
  cosine_annealing_step : Z -> opt_state -> opt_state;
  shuffle : Z -> list (image * nat) -> list (image * nat);
  shuffle_length : forall r l, length (shuffle r l) = length l;
  rng_next : Z -> Z
}.

(** What the run leaves behind for an observer: calls into the framework and
    lines on the console, in order. *)
Inductive event : Type :=
  | EvSetSeed (seed : Z)
  | EvImageFolder (root : list string)
  | EvBuildModel (num_classes : Z)
  | EvPrintDevice (cuda : bool)
  | EvTqdm (desc : string)
  | EvModelTrain
  | EvModelEval
  | EvZeroGrad
  | EvForward (train_mode grad_mode : bool)
  | EvCrossEntropy
  | EvScaleLoss
  | EvBackward (fresh : bool)
  | EvUnscale
  | EvClipGradNorm
  | EvOptimizerStep
  | EvScalerUpdate
  | EvPrintStep (epoch step : Z) (lr loss : Q)
  | EvSchedulerStep
  | EvPrintEpoch (epoch : Z) (train_loss train_acc val_loss val_acc : Q)
  | EvTorchSave (file : list string).

#[global] Instance event_eq_dec : EqDecision event.
Proof.
  intros x y; unfold Decision.
  decide equality; try apply Z.eq_dec; try apply bool_dec;
    try apply String.string_dec; try apply (list_eq_dec _);
    try (decide equality; apply Pos.eq_dec || apply Z.eq_dec).
Defined.

(** ** Data loading *)

Fixpoint chunks_fuel {A} (fuel k : nat) (l : list A) : list (list A) :=
  match fuel with
  | O => []
  | S fuel' =>
      match l with
      | [] => []
      | _ => take k l :: chunks_fuel fuel' k (drop k l)
      end
  end.

(** Consecutive slices of [k] elements; the last one may be shorter. *)
Definition chunks {A} (k : nat) (l : list A) : list (list A) :=
  chunks_fuel (length l) k l.

Section Program.
Context `{FW : Framework}.

Abbreviation filesystem := (gmap (list string) (node (content image params opt_state))).

(** What the script puts into a transform pipeline: the normalisation
    statistics, and whether the random augmentations are on. *)
Record Transform : Type := {
  augment : bool;
  normalize_mean : meta_value;
  normalize_std : meta_value
}.

Record ImageFolder : Type := {
  classes : list string;
  samples : list (image * nat);
  transform : Transform
}.

Record DataLoader : Type := {
  dataset : list (image * nat);
  dl_batch_size : Z;
  dl_shuffle : bool;
  dl_drop_last : bool
}.

(** [len(loader)]. *)
Definition loader_len (l : DataLoader) : Z :=
  let n := Z.of_nat (length (dataset l)) in
  if dl_drop_last l then n / dl_batch_size l
  else (n + dl_batch_size l - 1) / dl_batch_size l.

(** The batches of one pass over [order], a rearrangement of the dataset. *)
Definition batches_of (l : DataLoader) (order : list (image * nat))
    : list (list image * list nat) :=
  let k := Z.to_nat (dl_batch_size l) in
  let cs := chunks k order in
  let kept := if dl_drop_last l
              then filter (fun c => length c = k) cs else cs in
  map (fun c => (map fst c, map snd c)) kept.

Record world : Type := {
  fs : filesystem;
  log : list event;
  grad_enabled : bool;
  rng : Z
}.

Record Model : Type := {
  fc_out_features : Z;
  state_dict : params;
  training : bool;
  grad : option grads
}.

(** The objects [train_model] creates and the loop mutates in place,
    together with the world around them. *)
Record tstate : Type := {
  tw : world;
  model : Model;
  optimizer : opt_state;
  scaler : Q
}.

Definition emit_w (e : event) : M world unit :=
  modify (fun w => {| fs := fs w; log := log w ++ [e];
                      grad_enabled := grad_enabled w; rng := rng w |}).

Definition with_world (f : world -> world) (s : tstate) : tstate :=
  {| tw := f (tw s); model := model s; optimizer := optimizer s;
     scaler := scaler s |}.

Definition with_model (f : Model -> Model) (s : tstate) : tstate :=
  {| tw := tw s; model := f (model s); optimizer := optimizer s;
     scaler := scaler s |}.

Definition lift_world {A} (m : M world A) : M tstate A := fun s =>
  let '(r, w') := m (tw s) in (r, with_world (fun _ => w') s).

Definition emit (e : event) : M tstate unit := lift_world (emit_w e).

Definition set_grad_enabled (b : bool) (w : world) : world :=
  {| fs := fs w; log := log w; grad_enabled := b; rng := rng w |}.

(** [torch.no_grad()], as a context manager and as a decorator: gradient
    tracking is off inside and restored on the way out, also on an error. *)
Definition no_grad {A} (m : M tstate A) : M tstate A := fun s =>
  let prev := grad_enabled (tw s) in
  let '(r, s') := m (with_world (set_grad_enabled false) s) in
  (r, with_world (set_grad_enabled prev) s').

(** Iterating a loader: one shuffle per pass when asked for. *)
Definition loader_batches (l : DataLoader) (r : Z)
    : list (list image * list nat) :=
  batches_of l (if dl_shuffle l then shuffle r (dataset l) else dataset l).

Definition advance_rng (l : DataLoader) (w : world) : world :=
  if dl_shuffle l then
    {| fs := fs w; log := log w; grad_enabled := grad_enabled w;
       rng := rng_next (rng w) |}
  else w.

Definition loader_iter (l : DataLoader)
    : M world (list (list image * list nat)) := fun w =>
  (Ok (loader_batches l (rng w)), advance_rng l w).

(** ** [set_seed] *)
Definition set_seed (sd : Z) : M world unit :=
  modify (fun w => {| fs := fs w; log := log w ++ [EvSetSeed sd];
                      grad_enabled := grad_enabled w; rng := sd |}).

(** ** [datasets.ImageFolder] and [DataLoader]

    After torchvision: one class per sub-directory of the root, in sorted
    order, holding the images found anywhere below it; an error when there
    is no class directory or when a class directory holds no image. *)
Definition images_of
    (entries : list (list string * content image params opt_state))
    : list image :=
  omap (fun '(_, c) => match c with Image i => Some i | _ => None end) entries.

Definition image_folder (root : list string) (tfms : Transform)
    : M world ImageFolder :=
  emit_w (EvImageFolder root) ;;
  tree ← gets fs;
  let cls := subdirs tree root in
  let per_class :=
    map (fun c => images_of (files_under tree (root ++ [c]))) cls in
  if bool_decide (cls = []) then
    raise (FileNotFoundError
             (String.append "Couldn't find any class folder in "
                            (str_of_path root)))
  else if existsb (fun imgs => bool_decide (length imgs = O)) per_class then
    raise (FileNotFoundError "Found no valid file for the classes")
  else
    mret {| classes := cls;
            samples := concat (imap (fun i imgs => map (fun x => (x, i)) imgs)
                                    per_class);
            transform := tfms |}.

Definition data_loader (ds : ImageFolder) (shuf drop : bool) (cfg : TrainConfig)
    : M world DataLoader :=
  if num_workers cfg <? 0 then
    raise (ValueError "num_workers option should be non-negative")
  else if batch_size cfg <=? 0 then
    raise (ValueError "batch_size should be a positive integer value")
  else
    mret {| dataset := samples ds; dl_batch_size := batch_size cfg;
            dl_shuffle := shuf; dl_drop_last := drop |}.

(** ** [build_dataloaders] *)
Definition build_dataloaders (cfg : TrainConfig)
    : M world (DataLoader * DataLoader * Z) :=
  let train_dir := data_root cfg ++ ["train"%string] in
  let val_dir := data_root cfg ++ ["val"%string] in
  tree ← gets fs;
  if negb (is_dir tree train_dir) || negb (is_dir tree val_dir) then
    raise (FileNotFoundError
             (String.append
                "Expecting 'train' and 'val' subdirectories under "
                (str_of_path (data_root cfg))))
  else
    mean ← lift_result (dict_getitem IMAGENET1K_V2_meta "mean");
    std ← lift_result (dict_getitem IMAGENET1K_V2_meta "std");
    let train_tfms :=
      {| augment := true; normalize_mean := mean; normalize_std := std |} in
    mean ← lift_result (dict_getitem IMAGENET1K_V2_meta "mean");
    std ← lift_result (dict_getitem IMAGENET1K_V2_meta "std");
    let eval_tfms :=
      {| augment := false; normalize_mean := mean; normalize_std := std |} in
    train_dataset ← image_folder train_dir train_tfms;
    val_dataset ← image_folder val_dir eval_tfms;
    let num_classes := Z.of_nat (length (classes train_dataset)) in
    train_loader ← data_loader train_dataset true true cfg;
    val_loader ← data_loader val_dataset false false cfg;
    mret (train_loader, val_loader, num_classes).

(** ** [build_model]: pretrained backbone, new head of [num_classes] outputs.
    [nn.Linear] refuses a negative size. *)
Definition build_model (num_classes : Z) : result Model :=
  if num_classes <? 0 then
    Raise (RuntimeError "Trying to create tensor with negative dimension")
  else
    Ok {| fc_out_features := num_classes;
          state_dict := resnet50_with_head num_classes;
          training := true;
          grad := None |}.

(** ** [accuracy] *)

(** Index of the first maximum of a row. *)
Fixpoint argmax_from (best : Q) (besti i : nat) (row : list Q) : nat :=
  match row with
  | [] => besti
  | x :: row' =>
      if py_gt x best then argmax_from x i (S i) row'
      else argmax_from best besti (S i) row'
  end.

Definition argmax (row : list Q) : nat :=
  match row with
  | [] => O
  | x :: row' => argmax_from x O 1%nat row'
  end.

Fixpoint hits (preds target : list nat) : nat :=
  match preds, target with
  | p :: preds', t :: target' =>
      ((if Nat.eqb p t then 1 else 0) + hits preds' target')%nat
  | _, _ => O
  end.

Definition accuracy (output : list (list Q)) (target : list nat) : Q :=
  let preds := map argmax output in
  (inject_Z (Z.of_nat (hits preds target))
   / inject_Z (Z.of_nat (length preds)))%Q.

(** ** [train_one_epoch] *)

Definition zero_grad : M tstate unit :=
  emit EvZeroGrad ;;
  modify (with_model (fun m =>
    {| fc_out_features := fc_out_features m; state_dict := state_dict m;
       training := training m; grad := None |})).

Definition set_training (b : bool) : M tstate unit :=
  emit (if b then EvModelTrain else EvModelEval) ;;
  modify (with_model (fun m =>
    {| fc_out_features := fc_out_features m; state_dict := state_dict m;
       training := b; grad := grad m |})).

(** [model(images)] *)
Definition call_model (images : list image) : M tstate (list (list Q)) :=
  m ← gets model;
  g ← gets (fun s => grad_enabled (tw s));
  emit (EvForward (training m) g) ;;
  let '(logits, p') := forward (state_dict m) (training m) images in
  modify (with_model (fun m =>
    {| fc_out_features := fc_out_features m; state_dict := p';
       training := training m; grad := grad m |})) ;;
  mret logits.

Definition loss_fn (logits : list (list Q)) (labels : list nat) : M tstate Q :=
  emit EvCrossEntropy ;; mret (cross_entropy logits labels).

(** [scaler.scale(loss).backward()]: gradients add up onto what is there. *)
Definition scale_backward (images : list image) (labels : list nat)
    : M tstate unit :=
  emit EvScaleLoss ;;
  m ← gets model;
  sc ← gets scaler;
  emit (EvBackward (bool_decide (grad m = None))) ;;
  let g := backward (state_dict m) images labels sc in
  modify (with_model (fun m =>
    {| fc_out_features := fc_out_features m; state_dict := state_dict m;
       training := training m;
       grad := Some (match grad m with
                     | None => g
                     | Some g0 => grad_accumulate g0 g
                     end) |})).

Definition map_grad (f : grads -> grads) : M tstate unit :=
  modify (with_model (fun m =>
    {| fc_out_features := fc_out_features m; state_dict := state_dict m;
       training := training m; grad := option_map f (grad m) |})).

Definition unscale_ : M tstate unit :=
  emit EvUnscale ;; sc ← gets scaler; map_grad (unscale_grads sc).

Definition clip_grad_norm_ (max_norm : Q) : M tstate unit :=
  emit EvClipGradNorm ;; map_grad (clip_grad_norm max_norm).

(** [scaler.step(optimizer)] *)
Definition step_optimizer : M tstate unit :=
  emit EvOptimizerStep ;;
  modify (fun s =>
    match grad (model s) with
    | None => s
    | Some g =>
        let '(o', p') := scaler_step (optimizer s) (state_dict (model s)) g in
        {| tw := tw s;
           model := {| fc_out_features := fc_out_features (model s);
                       state_dict := p'; training := training (model s);
                       grad := grad (model s) |};
           optimizer := o'; scaler := scaler s |}
    end).

(** [scaler.update()] *)
Definition update_scaler : M tstate unit :=
  emit EvScalerUpdate ;;
  modify (fun s =>
    match grad (model s) with
    | None => s
    | Some g =>
        {| tw := tw s; model := model s; optimizer := optimizer s;
           scaler := scaler_update (scaler s) g |}
    end).

(** The body of the loop over the training batches. *)
Definition train_batch (epoch : Z) (cfg : TrainConfig)
    (acc : Q * Q * Z) (batch : list image * list nat) : M tstate (Q * Q * Z) :=
  let '(running_loss, running_acc, step) := acc in
  let '(images, labels) := batch in
  zero_grad ;;
  logits ← call_model images;
  loss ← loss_fn logits labels;
  scale_backward images labels ;;
  unscale_ ;;
  clip_grad_norm_ 1 ;;
  step_optimizer ;;
  update_scaler ;;
  '(running_loss, running_acc) ←
    no_grad (mret ((running_loss + loss)%Q,
                   (running_acc + accuracy logits labels)%Q));
  r ← lift_result (py_mod step (log_every cfg));
  (if r =? 0 then
     lr ← gets (fun s => current_lr (optimizer s));
     emit (EvPrintStep epoch step lr loss)
   else mret tt) ;;
  mret (running_loss, running_acc, step + 1).

Definition train_one_epoch (loader : DataLoader) (epoch : Z) (cfg : TrainConfig)
    : M tstate (Q * Q) :=
  set_training true ;;
  emit (EvTqdm "[train]") ;;
  bs ← lift_world (loader_iter loader);
  '(running_loss, running_acc, _) ←
    for_each (train_batch epoch cfg) bs (0%Q, 0%Q, 0);
  let steps := loader_len loader in
  l ← lift_result (py_truediv running_loss steps);
  a ← lift_result (py_truediv running_acc steps);
  mret (l, a).

(** ** [evaluate] *)

Definition eval_batch (acc : Q * Q) (batch : list image * list nat)
    : M tstate (Q * Q) :=
  let '(total_loss, total_acc) := acc in
  let '(images, labels) := batch in
  logits ← call_model images;
  loss ← loss_fn logits labels;
  mret ((total_loss + loss)%Q, (total_acc + accuracy logits labels)%Q).

Definition evaluate (loader : DataLoader) : M tstate (Q * Q) :=
  no_grad (
    set_training false ;;
    emit (EvTqdm "Validation") ;;
    bs ← lift_world (loader_iter loader);
    '(total_loss, total_acc) ← for_each eval_batch bs (0%Q, 0%Q);
    let steps := loader_len loader in
    l ← lift_result (py_truediv total_loss steps);
    a ← lift_result (py_truediv total_acc steps);
    mret (l, a)).

(** ** [save_checkpoint] *)

Definition checkpoint_name (epoch : Z) (metric : Q) : string :=
  String.append "resnet50_epoch"
    (String.append (Fmt.d03 epoch)
       (String.append "_acc" (String.append (Fmt.f3 metric) ".pt"))).

Definition put_fs (tree : filesystem) : M tstate unit :=
  modify (with_world (fun w =>
    {| fs := tree; log := log w; grad_enabled := grad_enabled w;
       rng := rng w |})).

(** The state after a change of the file system and some events. *)
Definition saved_state (tree : filesystem) (evs : list event) (s : tstate)
    : tstate :=
  with_world (fun w => {| fs := tree; log := log w ++ evs;
                          grad_enabled := grad_enabled w; rng := rng w |}) s.

Definition checkpoint_dict (m : Model) (o : opt_state) (epoch : Z) (metric : Q)
    : gmap string (pyval params opt_state) :=
  <["epoch"%string := VInt epoch]>
    (<["state_dict"%string := VStateDict (state_dict m)]>
       (<["optimizer_state"%string := VOptimizerState o]>
          (<["val_top1"%string := VFloat metric]> ∅))).

Definition save_checkpoint (epoch : Z) (cfg : TrainConfig) (metric : Q)
    : M tstate unit :=
  tree ← gets (fun s => fs (tw s));
  tree ← lift_result (mkdir_parents_exist_ok tree (output_dir cfg));
  put_fs tree ;;
  m ← gets model;
  o ← gets optimizer;
  let ckpt := checkpoint_dict m o epoch metric in
  let file := output_dir cfg ++ [checkpoint_name epoch metric] in
  tree ← lift_result (write_file tree file (Pickle ckpt));
  put_fs tree ;;
  emit (EvTorchSave file).

(** ** [train_model] *)

(** Everything before the loop over the epochs. *)
Definition train_setup (cfg : TrainConfig)
    : M world (DataLoader * DataLoader * Model * opt_state * Q) :=
  set_seed (seed cfg) ;;
  '(train_loader, val_loader, inferred_classes) ← build_dataloaders cfg;
  let num_classes := py_or (num_classes cfg) inferred_classes in
  emit_w (EvPrintDevice cuda_is_available) ;;
  emit_w (EvBuildModel num_classes) ;;
  m ← lift_result (build_model num_classes);
  let o := adamw (state_dict m) (learning_rate cfg) (weight_decay cfg) in
  mret (train_loader, val_loader, m, o, 65536%Q).

Definition scheduler_step (cfg : TrainConfig) : M tstate unit :=
  emit EvSchedulerStep ;;
  modify (fun s =>
    {| tw := tw s; model := model s;
       optimizer := cosine_annealing_step (epochs cfg) (optimizer s);
       scaler := scaler s |}).

(** The body of the loop over the epochs; the accumulator is [best_acc]. *)
Definition epoch_body (cfg : TrainConfig) (train_loader val_loader : DataLoader)
    (best_acc : Q) (epoch : Z) : M tstate Q :=
  '(train_loss, train_acc) ← train_one_epoch train_loader epoch cfg;
  '(val_loss, val_acc) ← evaluate val_loader;
  scheduler_step cfg ;;
  emit (EvPrintEpoch epoch train_loss train_acc val_loss val_acc) ;;
  if py_gt val_acc best_acc then
    save_checkpoint epoch cfg val_acc ;; mret val_acc
  else mret best_acc.

Definition run_epochs (cfg : TrainConfig) (train_loader val_loader : DataLoader)
    : M tstate Q :=
  for_each (epoch_body cfg train_loader val_loader)
           (seqZ 1 (epochs cfg)) 0%Q.

Definition train_model (cfg : TrainConfig) : M world unit := fun w =>
  match train_setup cfg w with
  | (Raise e, w') => (Raise e, w')
  | (Ok (train_loader, val_loader, m, o, sc), w') =>
      let '(r, s) :=
        run_epochs cfg train_loader val_loader
          {| tw := w'; model := m; optimizer := o; scaler := sc |} in
      (match r with Ok _ => Ok tt | Raise e => Raise e end, tw s)
  end.

(** The process: an uncaught exception ends it with status 1. *)
Definition main (cfg : TrainConfig) (w : world) : Z * world :=
  let '(r, w') := train_model cfg w in
  (match r with Ok _ => 0 | Raise _ => 1 end, w').

(** ** What an evaluation pass is to return

    The loss and the accuracy of every batch under the parameters [p] in
    evaluation mode, summed from left to right, over the number of
    batches. *)
Definition batch_loss (p : params) (b : list image * list nat) : Q :=
  cross_entropy (fst (forward p false (fst b))) (snd b).

Definition batch_accuracy (p : params) (b : list image * list nat) : Q :=
  accuracy (fst (forward p false (fst b))) (snd b).

Definition Qsum_from (start : Q) (l : list Q) : Q := fold_left Qplus l start.

Definition average (l : list Q) : Q :=
  (Qsum_from 0 l / inject_Z (Z.of_nat (length l)))%Q.

Definition eval_events (g : bool) (bs : list (list image * list nat))
    : list event :=
  concat (map (fun _ => [EvForward false g; EvCrossEntropy]) bs).

(** The state with the model switched to evaluation mode. *)
Definition eval_mode (s : tstate) : tstate :=
  with_model (fun m => {| fc_out_features := fc_out_features m;
                          state_dict := state_dict m;
                          training := false; grad := grad m |}) s.

(** ** Reading a run off its log *)

Definition is_summary (e : event) : bool :=
  match e with EvPrintEpoch _ _ _ _ _ => true | _ => false end.

Definition is_save (e : event) : bool :=
  match e with EvTorchSave _ => true | _ => false end.

(** One entry per epoch summary: the epoch, its validation accuracy, and the
    checkpoint written right after it, if any. *)
Fixpoint epoch_view (l : list event) : list (Z * Q * option (list string)) :=
  match l with
  | [] => []
  | EvPrintEpoch e _ _ _ va :: l' =>
      (e, va, match l' with
              | EvTorchSave f :: _ => Some f
              | _ => None
              end) :: epoch_view l'
  | _ :: l' => epoch_view l'
  end.

Definition is_zero_grad (e : event) : bool :=
  match e with EvZeroGrad => true | _ => false end.

(** Some reset of the gradients comes after an optimizer step. *)
Fixpoint reset_follows_step (l : list event) : bool :=
  match l with
  | [] => false
  | EvOptimizerStep :: l' => existsb is_zero_grad l' || reset_follows_step l'
  | _ :: l' => reset_follows_step l'
  end.

(** Events below the level of the epoch: neither a summary nor a save. *)
Definition inner (e : event) : Prop := is_summary e = false /\ is_save e = false.

(** An action that leaves the file system alone and logs inner events
    only, whatever its outcome. *)
Definition quiet_step (s s' : tstate) : Prop :=
  fs (tw s') = fs (tw s) /\
  exists evs, log (tw s') = log (tw s) ++ evs /\ Forall inner evs.

Definition Quiet {A} (m : M tstate A) : Prop :=
  forall s, quiet_step s (snd (m s)).

(** An action that never raises. *)
Definition Total {A} (m : M tstate A) : Prop :=
  forall s, is_ok (fst (m s)) = true.

(** A stretch of log that does not open with a save. *)
Definition starts_quiet (l : list event) : Prop :=
  match l with
  | EvTorchSave _ :: _ => False
  | _ => True
  end.

(** The accuracies of the epochs that were checkpointed, in order. *)
Definition saved_accs (v : list (Z * Q * option (list string))) : list Q :=
  omap (fun x => match x.2 with Some _ => Some x.1.2 | None => None end) v.

(** The checkpoint-on-improvement policy, read off the view [v] of a run
    that started with the best accuracy [b0] and ended with [b']: an epoch is
    checkpointed, under the name of its number and accuracy, exactly when
    its accuracy strictly exceeds [b0] and the accuracy of every epoch before
    it; [b'] is the accuracy of the last checkpointed epoch, or [b0] when
    there is none. *)
Definition improvement_policy (out : list string) (b0 : Q)
    (v : list (Z * Q * option (list string))) (b' : Q) : Prop :=
  Forall (fun x => x.2 = None \/
                   x.2 = Some (out ++ [checkpoint_name x.1.1 x.1.2])) v /\
  (forall pre x post,
     v = pre ++ x :: post ->
     (is_Some x.2 <->
      (b0 < x.1.2)%Q /\ Forall (fun y => (y.1.2 < x.1.2)%Q) pre)) /\
  b' = List.last (saved_accs v) b0.

(** A sequence of accuracies that never goes up. *)
Definition non_increasing (l : list Q) : Prop :=
  forall i j a b, (i <= j)%nat -> l !! i = Some a -> l !! j = Some b ->
                  (b <= a)%Q.

Definition is_optimizer_step (e : event) : bool :=
  match e with EvOptimizerStep => true | _ => false end.

(** The modes (training mode, gradient tracking) of the forward passes of a
    log, and the flags of its backward passes. *)
Definition forward_modes (l : list event) : list (bool * bool) :=
  omap (fun e => match e with EvForward t g => Some (t, g) | _ => None end) l.

Definition backward_flags (l : list event) : list bool :=
  omap (fun e => match e with EvBackward f => Some f | _ => None end) l.

Definition printed_steps (l : list event) : list Z :=
  omap (fun e => match e with EvPrintStep _ st _ _ => Some st | _ => None end) l.

(** The accuracy of the entry [x] strictly exceeds [b0] and the accuracy of
    every entry of [pre]: it exceeds the running best that started at
    [b0]. *)
Definition improves (b0 : Q) (pre : list (Z * Q * option (list string)))
    (x : Z * Q * option (list string)) : Prop :=
  (b0 < x.1.2)%Q /\ Forall (fun y => (y.1.2 < x.1.2)%Q) pre.

(** The checkpoint recorded for the entry [x], if any, is in the tree: a
    file named after the epoch and the accuracy of [x], holding them. *)
Definition checkpoint_in (tree : filesystem) (out : list string)
    (x : Z * Q * option (list string)) : Prop :=
  match x.2 with
  | None => True
  | Some f =>
      f = out ++ [checkpoint_name x.1.1 x.1.2] /\
      exists d, tree !! f = Some (File (Pickle d)) /\
                d !! "epoch"%string = Some (VInt x.1.1) /\
                d !! "val_top1"%string = Some (VFloat x.1.2)
  end.

(** Between [tree] and [tree'] nothing changed off the path to [out] except,
    possibly, the files [fsaved]. *)
Definition untouched_elsewhere (tree tree' : filesystem) (out : list string)
    (fsaved : list (list string)) : Prop :=
  forall q, ~ q `prefix_of` out -> q ∉ fsaved -> tree' !! q = tree !! q.

(** The events of one training iteration, in the order of the calls. *)
Definition iteration_events (train_mode grad_mode : bool) : list event :=
  [EvZeroGrad; EvForward train_mode grad_mode; EvCrossEntropy; EvScaleLoss;
   EvBackward true; EvUnscale; EvClipGradNorm; EvOptimizerStep;
   EvScalerUpdate].

(** The directory [p] exists, with all the directories above it. *)
Definition dir_exists (tree : filesystem) (p : list string) : Prop :=
  forall q, q <> [] -> q `prefix_of` p -> tree !! q = Some Dir.

(** Nothing in the way of creating [p]: no file on the path down to it. *)
Definition dir_creatable (tree : filesystem) (p : list string) : Prop :=
  forall q c, q `prefix_of` p -> tree !! q <> Some (File c).

End Program.

(** Reading a checkpoint name back: the epoch and the thousandths of the
    accuracy. *)
Definition decode_name (name : string) : option (N * N) :=
  s1 ← Fmt.strip_prefix "resnet50_epoch" name;
  let '(ds_epoch, s2) := Fmt.span_digits s1 in
  s3 ← Fmt.strip_prefix "_acc" s2;
  let '(ds_int, s4) := Fmt.span_digits s3 in
  s5 ← Fmt.strip_prefix "." s4;
  let '(ds_frac, s6) := Fmt.span_digits s5 in
  if String.eqb s6 ".pt" && (String.length ds_frac =? 3)%nat then
    e ← Fmt.N_of_digits ds_epoch;
    i ← Fmt.N_of_digits ds_int;
    f ← Fmt.N_of_digits ds_frac;
    Some (e, (i * 1000 + f)%N)
  else None.

(** The size of the head of the model [train_model] builds, when it gets
    that far. *)
Definition setup_out_features `{FW : Framework} (cfg : TrainConfig) (w : world)
    : option Z :=
  match train_setup cfg w with
  | (Ok (_, _, m, _, _), _) => Some (fc_out_features m)
  | (Raise _, _) => None
  end.

(** ** A small framework to run the script on

    Images are numbers; the state is the number of optimizer steps taken so
    far; the model votes for the class [(image + steps) mod 2]. *)
Definition toy_logits (p : Z) (i : nat) : list Q :=
  if Z.even (Z.of_nat i + p) then [1%Q; 0%Q] else [0%Q; 1%Q].

#[global] Instance Toy : Framework := {|
  image := nat;
  params := Z;
  grads := Z;
  opt_state := Z;
  cuda_is_available := false;
  resnet50_with_head := fun _ => 0;
  forward := fun p _ x => (map (toy_logits p) x, p);
  forward_eval := fun _ _ => eq_refl;
  cross_entropy := fun _ _ => 1%Q;
  backward := fun _ _ _ _ => 1;
  grad_accumulate := Z.add;
  unscale_grads := fun _ g => g;
  clip_grad_norm := fun _ g => g;
  scaler_step := fun o p g => (o + 1, p + g);
  scaler_update := fun sc _ => sc;
  adamw := fun _ _ _ => 0;
  current_lr := fun _ => (5 # 10000)%Q;
  cosine_annealing_step := fun _ o => o;
  shuffle := fun _ l => l;
  shuffle_length := fun _ _ => eq_refl;
  rng_next := Z.succ
|}.

Module Scenario.

Definition img (cls name : string) (split : string) (i : nat)
    : list string * node (content nat Z Z) :=
  (["data"; split; cls; name]%string, File (Image i)).

(** Two classes, four training images, two validation images. *)
Definition tree : gmap (list string) (node (content nat Z Z)) :=
  list_to_map
    ([ (["data"]%string, Dir);
       (["data"; "train"]%string, Dir);
       (["data"; "val"]%string, Dir);
       (["data"; "train"; "a"]%string, Dir);
       (["data"; "train"; "b"]%string, Dir);
       (["data"; "val"; "a"]%string, Dir);
       (["data"; "val"; "b"]%string, Dir);
       img "a" "0.jpg" "train" 0; img "a" "2.jpg" "train" 2;
       img "b" "1.jpg" "train" 1; img "b" "3.jpg" "train" 3;
       img "a" "0.jpg" "val" 0; img "b" "1.jpg" "val" 1 ]).

Definition w0 : world (FW := Toy) :=
  {| fs := tree; log := []; grad_enabled := true; rng := 0 |}.

Definition with_epochs (e : Z) (bs : Z) (cfg : TrainConfig) : TrainConfig :=
  {| data_root := data_root cfg; batch_size := bs;
     num_workers := num_workers cfg; epochs := e;
     learning_rate := learning_rate cfg; weight_decay := weight_decay cfg;
     seed := seed cfg; output_dir := output_dir cfg;
     log_every := log_every cfg; num_classes := num_classes cfg |}.

Definition cfg1 : TrainConfig := with_epochs 1 64 (default_config ["data"]%string).
Definition cfg_small : TrainConfig := with_epochs 3 2 (default_config ["data"]%string).

Definition with_num_classes (k : option Z) (cfg : TrainConfig) : TrainConfig :=
  {| data_root := data_root cfg; batch_size := batch_size cfg;
     num_workers := num_workers cfg; epochs := epochs cfg;
     learning_rate := learning_rate cfg; weight_decay := weight_decay cfg;
     seed := seed cfg; output_dir := output_dir cfg;
     log_every := log_every cfg; num_classes := k |}.

Definition with_data_root (root : list string) (cfg : TrainConfig) : TrainConfig :=
  {| data_root := root; batch_size := batch_size cfg;
     num_workers := num_workers cfg; epochs := epochs cfg;
     learning_rate := learning_rate cfg; weight_decay := weight_decay cfg;
     seed := seed cfg; output_dir := output_dir cfg;
     log_every := log_every cfg; num_classes := num_classes cfg |}.

(** The objects of a run, before the first epoch. *)
Definition s0 : tstate (FW := Toy) :=
  {| tw := w0;
     model := {| fc_out_features := 2; state_dict := 0; training := true;
                 grad := None |};
     optimizer := 0;
     scaler := 65536 |}.

(** A dataset root without its [val/] directory. *)
Definition w_noval : world (FW := Toy) :=
  {| fs := list_to_map [ (["data"]%string, Dir);
                         (["data"; "train"]%string, Dir) ];
     log := []; grad_enabled := true; rng := 0 |}.

(** The training loader of the scenario under the default batch size, and
    one batch of two images. *)
Definition train_loader : DataLoader (FW := Toy) :=
  {| dataset := [(0, 0); (2, 0); (1, 1); (3, 1)]%nat;
     dl_batch_size := 64; dl_shuffle := true; dl_drop_last := true |}.

Definition batch0 : list nat * list nat := ([0; 1]%nat, [0; 1]%nat).

(** The validation loader of the scenario, and a loader over nothing. *)
Definition val_loader : DataLoader (FW := Toy) :=
  {| dataset := [(0, 0); (1, 1)]%nat;
     dl_batch_size := 64; dl_shuffle := false; dl_drop_last := false |}.

Definition empty_loader : DataLoader (FW := Toy) :=
  {| dataset := [];
     dl_batch_size := 64; dl_shuffle := false; dl_drop_last := false |}.

(** One optimizer step per epoch: the toy model is right on every other
    epoch only. *)
Definition cfg_flip : TrainConfig := with_epochs 3 4 (default_config ["data"]%string).
Definition cfg_zero : TrainConfig := with_epochs 1 4 (default_config ["data"]%string).

Definition loader_of (bs : Z) (shuf drop : bool)
    (data : list (nat * nat)) : DataLoader (FW := Toy) :=
  {| dataset := data; dl_batch_size := bs; dl_shuffle := shuf;
     dl_drop_last := drop |}.

Definition train_data : list (nat * nat) := [(0, 0); (2, 0); (1, 1); (3, 1)]%nat.
Definition val_data : list (nat * nat) := [(0, 0); (1, 1)]%nat.

Definition with_log_every (k : Z) (cfg : TrainConfig) : TrainConfig :=
  {| data_root := data_root cfg; batch_size := batch_size cfg;
     num_workers := num_workers cfg; epochs := epochs cfg;
     learning_rate := learning_rate cfg; weight_decay := weight_decay cfg;
     seed := seed cfg; output_dir := output_dir cfg;
     log_every := k; num_classes := num_classes cfg |}.

Definition cfg_no_epochs : TrainConfig := with_epochs 0 64 (default_config ["data"]%string).

(** A state in which the path of the output directory is a regular file. *)
Definition s_blocked : tstate (FW := Toy) :=
  {| tw := {| fs := list_to_map
                      [ (["artifacts"]%string, Dir);
                        (["artifacts"; "checkpoints"]%string, File Blob) ];
              log := []; grad_enabled := true; rng := 0 |};
     model := {| fc_out_features := 2; state_dict := 0; training := true;
                 grad := None |};
     optimizer := 0;
     scaler := 65536 |}.

End Scenario.


(** * Properties *)

(** ** Format specifications *)

Module FmtFacts.
Import Fmt.

Lemma all_digits_app s t :
  all_digits s = true -> all_digits t = true ->
  all_digits (String.append s t) = true.
Proof.
  induction s as [|c s IH]; simpl; [tauto|].
  intros [Hc Hs]%andb_prop Ht. rewrite Hc, IH; auto.
Qed.

Lemma all_digits_zeros k : all_digits (zeros k) = true.
Proof. induction k; simpl; auto. Qed.

Lemma all_digits_uint d : all_digits (NilEmpty.string_of_uint d) = true.
Proof. induction d; simpl; auto. Qed.

Lemma all_digits_zfill w n : all_digits (zfill w (str_of_N n)) = true.
Proof.
  apply all_digits_app; [apply all_digits_zeros | apply all_digits_uint].
Qed.

Lemma span_digits_app s rest :
  all_digits s = true -> stops rest ->
  span_digits (String.append s rest) = (s, rest).
Proof.
  intros Hs Hr. induction s as [|c s IH]; simpl in *.
  - destruct rest as [|c r]; simpl in *; [reflexivity|]. now rewrite Hr.
  - apply andb_prop in Hs as [Hc Hs]. rewrite Hc, (IH Hs). reflexivity.
Qed.

Lemma strip_prefix_app p s : strip_prefix p (String.append p s) = Some s.
Proof.
  induction p as [|c p IH]; simpl; [reflexivity|].
  now rewrite Ascii.eqb_refl.
Qed.

Lemma append_assoc s t u :
  String.append s (String.append t u) = String.append (String.append s t) u.
Proof.
  induction s as [|c s IH]; [reflexivity|].
  change (String c (String.append s (String.append t u))
          = String c (String.append (String.append s t) u)).
  now rewrite IH.
Qed.

Lemma uint_of_zeros k d :
  NilEmpty.uint_of_string (String.append (zeros k) (NilEmpty.string_of_uint d))
  = Some (Nat.iter k Decimal.D0 d).
Proof.
  induction k as [|k IH]; simpl.
  - apply NilEmpty.usu.
  - rewrite IH. reflexivity.
Qed.

Lemma of_uint_zeros k d : N.of_uint (Nat.iter k Decimal.D0 d) = N.of_uint d.
Proof. induction k; simpl; auto. Qed.

Lemma str_of_N_nonempty n : str_of_N n <> EmptyString.
Proof.
  unfold str_of_N. destruct n as [|p]; simpl; [discriminate|].
  pose proof (DecimalPos.Unsigned.of_to p) as H.
  destruct (Pos.to_uint p); simpl in *; discriminate.
Qed.

Lemma N_of_digits_zfill w n : N_of_digits (zfill w (str_of_N n)) = Some n.
Proof.
  unfold N_of_digits, zfill.
  destruct (String.append _ _) eqn:E.
  - exfalso. destruct (zeros _); simpl in E; [|discriminate].
    now apply (str_of_N_nonempty n).
  - rewrite <- E. unfold str_of_N. rewrite uint_of_zeros. simpl.
    rewrite of_uint_zeros. f_equal. apply DecimalN.Unsigned.of_to.
Qed.

Lemma N_of_digits_str n : N_of_digits (str_of_N n) = Some n.
Proof.
  pose proof (N_of_digits_zfill 0 n) as H. unfold zfill in H.
  simpl in H. exact H.
Qed.

Lemma zfill3_length_below (n : nat) :
  (n < 1000)%nat -> String.length (zfill 3 (str_of_N (N.of_nat n))) = 3%nat.
Proof.
  intros Hn.
  assert (H : forallb (fun k => String.length (zfill 3 (str_of_N (N.of_nat k)))
                                =? 3)%nat (seq 0 1000) = true)
    by (vm_compute; reflexivity).
  rewrite forallb_forall in H.
  apply Nat.eqb_eq, H, in_seq. lia.
Qed.

Lemma zfill3_length (r : Z) :
  0 <= r < 1000 -> String.length (zfill 3 (str_of_N (Z.to_N r))) = 3%nat.
Proof.
  intros Hr. rewrite <- (Z2Nat.id r) by lia.
  rewrite <- nat_N_Z, N2Z.id. apply zfill3_length_below. lia.
Qed.

Lemma round_half_even_nonneg q : 0 <= Qnum q -> 0 <= round_half_even q.
Proof.
  intros Hq. unfold round_half_even.
  assert (0 <= Qnum q / Z.pos (Qden q)) by (apply Z.div_pos; lia).
  repeat match goal with |- context [if ?b then _ else _] => destruct b end;
    lia.
Qed.

Lemma thousandths_nonneg m : 0 <= Qnum m -> 0 <= thousandths m.
Proof.
  intros Hm. apply round_half_even_nonneg. simpl. lia.
Qed.

End FmtFacts.

(** The name of a checkpoint reads back as its epoch and the thousandths of
    its accuracy. *)
Lemma decode_checkpoint_name (epoch : Z) (metric : Q) :
  0 <= epoch -> 0 <= Qnum metric ->
  decode_name (checkpoint_name epoch metric)
  = Some (Z.to_N epoch, Z.to_N (Fmt.thousandths metric)).
Proof.
  intros He Hm. pose proof (FmtFacts.thousandths_nonneg metric Hm) as Hr.
  unfold decode_name, checkpoint_name, Fmt.d03, Fmt.f3, Fmt.f3_abs.
  destruct (epoch <? 0) eqn:E1; [lia|].
  destruct (Qnum metric <? 0) eqn:E2; [lia|].
  set (r := Fmt.thousandths metric) in *.
  assert (Hbind : forall (A B : Type) (f : A -> option B) (x : A),
             (Some x ≫= f) = f x) by reflexivity.
  rewrite FmtFacts.strip_prefix_app, Hbind.
  rewrite FmtFacts.span_digits_app;
    [|apply FmtFacts.all_digits_zfill|reflexivity].
  cbv beta iota.
  rewrite FmtFacts.strip_prefix_app, Hbind.
  rewrite <- FmtFacts.append_assoc.
  rewrite FmtFacts.span_digits_app;
    [|apply FmtFacts.all_digits_uint|reflexivity].
  cbv beta iota.
  change (String "." ?x) with (String.append "." x).
  rewrite <- FmtFacts.append_assoc, FmtFacts.strip_prefix_app, Hbind.
  rewrite FmtFacts.span_digits_app;
    [|apply FmtFacts.all_digits_zfill|reflexivity].
  cbv beta iota.
  rewrite FmtFacts.zfill3_length by (apply Z.mod_pos_bound; lia).
  change (String.eqb ".pt" ".pt" && (3 =? 3)%nat) with true.
  cbv beta iota.
  rewrite !FmtFacts.N_of_digits_zfill, Hbind, FmtFacts.N_of_digits_str, !Hbind.
  do 2 f_equal.
  rewrite <- (Z2N.inj_mul _ 1000), <- Z2N.inj_add;
    try (apply Z.mul_nonneg_nonneg); try (apply Z.div_pos);
    try (apply Z.mod_pos_bound); try lia.
  f_equal. rewrite (Z.div_mod r 1000) at 3 by lia. lia.
Qed.

(** ** The monad *)

Lemma bind_ok_inv {S A B} (m : M S A) (f : A -> M S B) s b s' :
  (m ≫= f) s = (Ok b, s') ->
  exists a s1, m s = (Ok a, s1) /\ f a s1 = (Ok b, s').
Proof.
  unfold mbind, M_bind. destruct (m s) as [[a|e] s1]; intros H.
  - eauto.
  - discriminate.
Qed.

Lemma bind_ok {S A B} (m : M S A) (f : A -> M S B) s a s1 :
  m s = (Ok a, s1) -> (m ≫= f) s = f a s1.
Proof. unfold mbind, M_bind. now intros ->. Qed.

Lemma bind_raise {S A B} (m : M S A) (f : A -> M S B) s e s1 :
  m s = (Raise e, s1) -> (m ≫= f) s = (Raise e, s1).
Proof. unfold mbind, M_bind. now intros ->. Qed.

Ltac monad_unfold :=
  unfold mbind, M_bind, mret, M_ret, raise, gets, modify, lift_result in *.

(** ** The set-up: the dataset-layout check and the transforms *)

Section Setup.
Context `{FW : Framework}.

(** C3. When [train/] or [val/] is missing under the dataset root,
    [train_model] raises [FileNotFoundError] with its descriptive message
    right after seeding: the log gains the seeding event only (no dataset is
    constructed, no model is built, no epoch runs, no epoch summary is
    printed), the file system is untouched, and the process ends with a
    nonzero status. *)
Theorem missing_split_is_fatal (cfg : TrainConfig) (w : world) :
  is_dir (fs w) (data_root cfg ++ ["train"%string]) = false \/
  is_dir (fs w) (data_root cfg ++ ["val"%string]) = false ->
  train_model cfg w =
    (Raise (FileNotFoundError
              (String.append
                 "Expecting 'train' and 'val' subdirectories under "
                 (str_of_path (data_root cfg)))),
     {| fs := fs w; log := log w ++ [EvSetSeed (seed cfg)];
        grad_enabled := grad_enabled w; rng := seed cfg |}) /\
  fst (main cfg w) = 1 /\
  fs (snd (main cfg w)) = fs w /\
  filter (fun e => is_summary e) (log (snd (main cfg w)))
  = filter (fun e => is_summary e) (log w).
Proof.
  intros H.
  assert (Hc : negb (is_dir (fs w) (data_root cfg ++ ["train"%string]))
               || negb (is_dir (fs w) (data_root cfg ++ ["val"%string]))
               = true).
  { destruct H as [-> | ->]; simpl; auto using orb_true_r. }
  assert (E : train_model cfg w =
    (Raise (FileNotFoundError
              (String.append
                 "Expecting 'train' and 'val' subdirectories under "
                 (str_of_path (data_root cfg)))),
     {| fs := fs w; log := log w ++ [EvSetSeed (seed cfg)];
        grad_enabled := grad_enabled w; rng := seed cfg |})).
  { unfold train_model, train_setup, set_seed, build_dataloaders.
    monad_unfold. simpl. rewrite Hc. reflexivity. }
  split; [exact E|]. unfold main. rewrite E. simpl.
  rewrite filter_app. simpl. rewrite app_nil_r. auto.
Qed.

(** Whatever the configuration and the file system, the set-up ends in an
    exception right after seeding: the layout check's when a split is
    missing, and otherwise that of the first subscript
    [ResNet50_Weights.IMAGENET1K_V2.meta["mean"]] of the training
    transforms. *)
Lemma train_setup_raises (cfg : TrainConfig) (w : world) :
  train_setup cfg w =
    (Raise (if is_dir (fs w) (data_root cfg ++ ["train"%string])
               && is_dir (fs w) (data_root cfg ++ ["val"%string])
            then KeyError "mean"
            else FileNotFoundError
                   (String.append
                      "Expecting 'train' and 'val' subdirectories under "
                      (str_of_path (data_root cfg)))),
     {| fs := fs w; log := log w ++ [EvSetSeed (seed cfg)];
        grad_enabled := grad_enabled w; rng := seed cfg |}).
Proof.
  unfold train_setup, set_seed, build_dataloaders.
  monad_unfold. simpl.
  destruct (is_dir (fs w) (data_root cfg ++ ["train"%string]));
    destruct (is_dir (fs w) (data_root cfg ++ ["val"%string])); reflexivity.
Qed.

(** C4. No model is ever built, so its head has no size to compare with the
    number of class directories or with the override: for every
    configuration and every file system [train_model] raises before
    [build_model] is reached.  With [train/] and [val/] in place the
    exception is [KeyError('mean')], from the subscript of the weights'
    metadata in the training transforms; the log holds the seeding only and
    the process ends with status 1. *)
Theorem model_never_built (cfg : TrainConfig) (w : world) :
  setup_out_features cfg w = None /\
  train_model cfg w =
    (Raise (if is_dir (fs w) (data_root cfg ++ ["train"%string])
               && is_dir (fs w) (data_root cfg ++ ["val"%string])
            then KeyError "mean"
            else FileNotFoundError
                   (String.append
                      "Expecting 'train' and 'val' subdirectories under "
                      (str_of_path (data_root cfg)))),
     {| fs := fs w; log := log w ++ [EvSetSeed (seed cfg)];
        grad_enabled := grad_enabled w; rng := seed cfg |}) /\
  fst (main cfg w) = 1.
Proof.
  unfold setup_out_features, main, train_model.
  rewrite train_setup_raises. repeat split.
Qed.

End Setup.

(** ** Directory creation *)

Section FsFacts.
Context {C : Type}.
Implicit Types (tree : gmap (list string) (node C)) (p q : list string).

Lemma mkdir_from_keeps tree tree' done todo q n :
  mkdir_from tree done todo = Ok tree' ->
  tree !! q = Some n -> tree' !! q = Some n.
Proof.
  revert tree done. induction todo as [|s rest IH]; intros tree done; simpl.
  - now intros [= <-].
  - destruct (tree !! (done ++ [s])) as [[|c]|] eqn:E; intros H Hq.
    + eapply IH; eauto.
    + discriminate.
    + eapply IH; [exact H|].
      rewrite lookup_insert_ne; [exact Hq|]. congruence.
Qed.


Lemma mkdir_from_made tree tree' done todo q :
  mkdir_from tree done todo = Ok tree' ->
  q <> [] -> q `prefix_of` todo -> tree' !! (done ++ q) = Some Dir.
Proof.
  revert tree done q. induction todo as [|s rest IH]; intros tree done q; simpl.
  - intros _ Hq Hp. apply prefix_nil_inv in Hp. contradiction.
  - intros H Hq Hp. destruct q as [|s' q']; [contradiction|].
    apply prefix_cons_inv_1 in Hp as Hs. subst s'.
    apply prefix_cons_inv_2 in Hp.
    assert (Hhere : exists tree1, mkdir_from tree1 (done ++ [s]) rest = Ok tree'
                                  /\ tree1 !! (done ++ [s]) = Some Dir).
    { destruct (tree !! (done ++ [s])) as [[|c]|] eqn:E.
      - eauto.
      - discriminate.
      - eexists; split; [exact H|]. apply lookup_insert_eq. }
    destruct Hhere as (tree1 & H1 & Hd).
    destruct q' as [|s'' q''].
    + eapply mkdir_from_keeps; eauto.
    + replace (done ++ s :: s'' :: q'') with ((done ++ [s]) ++ s'' :: q'')
        by now rewrite <- app_assoc.
      eapply IH; eauto.
Qed.

Lemma mkdir_from_present tree done todo :
  (forall q, q <> [] -> q `prefix_of` todo -> tree !! (done ++ q) = Some Dir) ->
  mkdir_from tree done todo = Ok tree.
Proof.
  revert done. induction todo as [|s rest IH]; intros done H; simpl; [easy|].
  rewrite (H [s]); [|easy|apply prefix_cons, prefix_nil].
  apply IH. intros q Hq Hp. rewrite <- app_assoc. apply H; [easy|].
  now apply prefix_cons.
Qed.

Lemma mkdir_from_creatable tree done todo :
  (forall q c, q <> [] -> q `prefix_of` todo ->
               tree !! (done ++ q) <> Some (File c)) ->
  exists tree', mkdir_from tree done todo = Ok tree'.
Proof.
  revert tree done. induction todo as [|s rest IH]; intros tree done H; simpl.
  - eauto.
  - assert (Hrest : forall tree1,
              (forall q, q <> done ++ [s] -> tree1 !! q = tree !! q) ->
              exists tree', mkdir_from tree1 (done ++ [s]) rest = Ok tree').
    { intros tree1 Hsame. apply IH. intros q c Hq Hp.
      rewrite Hsame.
      - rewrite <- app_assoc. apply H; [easy|]. now apply prefix_cons.
      - intros E. apply (f_equal length) in E.
        rewrite !length_app in E. destruct q; [easy|simpl in E; lia]. }
    destruct (tree !! (done ++ [s])) as [[|c]|] eqn:E.
    + apply Hrest. auto.
    + exfalso. apply (H [s] c); [easy|apply prefix_cons, prefix_nil|exact E].
    + apply Hrest. intros q Hq. now apply lookup_insert_ne.
Qed.

Lemma mkdir_from_fresh tree tree' done todo q :
  mkdir_from tree done todo = Ok tree' ->
  tree !! q = None -> tree' !! q = Some Dir ->
  exists r, r `prefix_of` todo /\ q = done ++ r.
Proof.
  revert tree done. induction todo as [|a rest IH]; intros tree done; simpl.
  - intros [= <-] Hq Hq'. congruence.
  - destruct (tree !! (done ++ [a])) as [[|c]|] eqn:E; intros H Hq Hq'.
    + destruct (IH _ _ H Hq Hq') as (r & Hr & ->).
      exists (a :: r). split; [now apply prefix_cons|].
      now rewrite <- app_assoc.
    + discriminate.
    + destruct (decide (q = done ++ [a])) as [->|Hne].
      * exists [a]. split; [apply prefix_cons, prefix_nil|easy].
      * assert (Hq1 : <[done ++ [a] := Dir]> tree !! q = None)
          by now rewrite lookup_insert_ne.
        destruct (IH _ _ H Hq1 Hq') as (r & Hr & ->).
        exists (a :: r). split; [now apply prefix_cons|].
        now rewrite <- app_assoc.
Qed.

End FsFacts.

Lemma missing_split_is_fatal_witness :
  fst (main Scenario.cfg1 Scenario.w_noval) = 1.
Proof.
  destruct (missing_split_is_fatal Scenario.cfg1 Scenario.w_noval)
    as (_ & H & _).
  - right. vm_compute. reflexivity.
  - exact H.
Defined.

(** ** The scenario of one epoch *)

(** C5. The configuration is the default one but for [epochs = 1]; the
    dataset root holds two classes, four training images and two validation
    images, as [ImageFolder] reads them.  The run does not complete: it ends
    with status 1 on [KeyError('mean')], having printed no epoch summary and
    written no file under [artifacts/].  Past that point the scenario would
    still not complete: the training loader, built with the default batch
    size 64 and [drop_last=True] over four images, has length 0, and
    [train_one_epoch] over it raises [ZeroDivisionError]. *)
Theorem single_epoch_scenario_fails :
  epochs Scenario.cfg1 = 1 /\
  Scenario.with_epochs 20 64 Scenario.cfg1 = default_config ["data"]%string /\
  (forall tfms,
     fst (image_folder ["data"; "train"]%string tfms Scenario.w0)
     = Ok {| classes := ["a"; "b"]%string; samples := Scenario.train_data;
             transform := tfms |} /\
     fst (image_folder ["data"; "val"]%string tfms Scenario.w0)
     = Ok {| classes := ["a"; "b"]%string; samples := Scenario.val_data;
             transform := tfms |}) /\
  fst (train_model Scenario.cfg1 Scenario.w0) = Raise (KeyError "mean") /\
  fst (main Scenario.cfg1 Scenario.w0) = 1 /\
  log (snd (main Scenario.cfg1 Scenario.w0)) = [EvSetSeed 17] /\
  files_under (fs (snd (main Scenario.cfg1 Scenario.w0))) ["artifacts"%string]
  = [] /\
  (forall tfms w,
     fst (data_loader {| classes := ["a"; "b"]%string;
                         samples := Scenario.train_data;
                         transform := tfms |} true true Scenario.cfg1 w)
     = Ok Scenario.train_loader) /\
  loader_len Scenario.train_loader = 0 /\
  fst (train_one_epoch Scenario.train_loader 1 Scenario.cfg1 Scenario.s0)
  = Raise (ZeroDivisionError "float division by zero").
Proof.
  split; [reflexivity|]. split; [reflexivity|].
  split. { intros tfms. split; vm_compute; reflexivity. }
  split; [vm_compute; reflexivity|]. split; [vm_compute; reflexivity|].
  split; [vm_compute; reflexivity|]. split; [vm_compute; reflexivity|].
  split. { intros tfms w. reflexivity. }
  split; [reflexivity|]. vm_compute. reflexivity.
Qed.

(** ** [save_checkpoint] *)

Section Saving.
Context `{FW : Framework}.

Lemma save_checkpoint_eq (epoch : Z) (cfg : TrainConfig) (metric : Q) (s : tstate) :
  let file := output_dir cfg ++ [checkpoint_name epoch metric] in
  let ckpt := Pickle (checkpoint_dict (model s) (optimizer s) epoch metric) in
  save_checkpoint epoch cfg metric s =
  match mkdir_parents_exist_ok (fs (tw s)) (output_dir cfg) with
  | Raise e => (Raise e, s)
  | Ok tree1 =>
      match write_file tree1 file ckpt with
      | Raise e => (Raise e, saved_state tree1 [] s)
      | Ok tree2 => (Ok tt, saved_state tree2 [EvTorchSave file] s)
      end
  end.
Proof.
  destruct s as [[tree l g r] m o sc].
  unfold save_checkpoint, put_fs, emit, lift_world, emit_w, saved_state,
    with_world.
  monad_unfold. simpl.
  destruct (mkdir_parents_exist_ok _ _) as [tree1|e]; [|reflexivity].
  simpl. destruct (write_file _ _ _) as [tree2|e]; simpl.
  - reflexivity.
  - now rewrite app_nil_r.
Qed.

Lemma write_file_into_dir (tree : gmap (list string) (node (content image params opt_state)))
    (dir : list string) (name : string) c :
  dir_exists tree dir -> tree !! (dir ++ [name]) <> Some Dir ->
  write_file tree (dir ++ [name]) c = Ok (<[dir ++ [name] := File c]> tree).
Proof.
  intros Hd Hn. unfold write_file.
  destruct (tree !! (dir ++ [name])) as [[|c']|] eqn:E; try contradiction;
    rewrite removelast_last; unfold is_dir;
    (destruct dir as [|a dir']; [reflexivity|]);
    now rewrite (Hd (a :: dir')).
Qed.

Lemma dir_exists_after_write (tree : gmap (list string) (node (content image params opt_state)))
    (dir : list string) (name : string) c :
  dir_exists tree dir -> dir_exists (<[dir ++ [name] := File c]> tree) dir.
Proof.
  intros Hd q Hq Hp. rewrite lookup_insert_ne; [now apply Hd|].
  intros E. apply prefix_length in Hp. rewrite <- E, length_app in Hp.
  simpl in Hp. lia.
Qed.

Lemma mkdir_makes_dir (tree tree' : gmap (list string) (node (content image params opt_state)))
    (p : list string) :
  mkdir_parents_exist_ok tree p = Ok tree' -> dir_exists tree' p.
Proof.
  intros H q Hq Hp.
  apply (mkdir_from_made tree tree' [] p q H Hq Hp).
Qed.

Lemma mkdir_existing (tree : gmap (list string) (node (content image params opt_state)))
    (p : list string) :
  dir_exists tree p -> mkdir_parents_exist_ok tree p = Ok tree.
Proof. intros H. apply mkdir_from_present. exact H. Qed.

(** C6. When nothing stands in the way, [save_checkpoint] succeeds and
    leaves the output directory in place together with every directory above
    it; on a directory that is already there the creation step succeeds and
    changes nothing; and any later save into the file system a save has left,
    in the same run or in another one, succeeds again. *)
Theorem save_creates_output_dir (epoch : Z) (cfg : TrainConfig) (metric : Q)
    (s : tstate) :
  dir_creatable (fs (tw s)) (output_dir cfg) ->
  (forall name, fs (tw s) !! (output_dir cfg ++ [name]) <> Some Dir) ->
  exists s1,
    save_checkpoint epoch cfg metric s = (Ok tt, s1) /\
    dir_exists (fs (tw s1)) (output_dir cfg) /\
    mkdir_parents_exist_ok (fs (tw s1)) (output_dir cfg) = Ok (fs (tw s1)) /\
    forall s2 epoch' metric',
      fs (tw s2) = fs (tw s1) ->
      exists s3, save_checkpoint epoch' cfg metric' s2 = (Ok tt, s3) /\
                 dir_exists (fs (tw s3)) (output_dir cfg).
Proof.
  intros Hc Hn.
  destruct (mkdir_from_creatable (fs (tw s)) [] (output_dir cfg))
    as [tree1 H1].
  { intros q c _ Hp. now apply Hc. }
  fold (mkdir_parents_exist_ok (fs (tw s)) (output_dir cfg)) in H1.
  pose proof (mkdir_makes_dir _ _ _ H1) as Hd1.
  assert (Hn1 : forall name, tree1 !! (output_dir cfg ++ [name]) <> Some Dir).
  { intros name E. destruct (fs (tw s) !! (output_dir cfg ++ [name]))
      as [n|] eqn:E0.
    - pose proof (mkdir_from_keeps _ _ _ _ _ _ H1 E0) as E1.
      rewrite E in E1. injection E1 as <-. now apply (Hn name).
    - destruct (mkdir_from_fresh _ _ _ _ _ H1 E0 E) as (r & Hr & Er).
      simpl in Er.
      apply prefix_length in Hr. rewrite <- Er, length_app in Hr.
      simpl in Hr. lia. }
  assert (Hsave : forall s2 e m tree,
            fs (tw s2) = tree -> dir_exists tree (output_dir cfg) ->
            (forall name, tree !! (output_dir cfg ++ [name]) <> Some Dir) ->
            exists s3, save_checkpoint e cfg m s2 = (Ok tt, s3) /\
                       fs (tw s3)
                       = <[output_dir cfg ++ [checkpoint_name e m] :=
                             File (Pickle (checkpoint_dict (model s2)
                                             (optimizer s2) e m))]> tree).
  { intros s2 e m tree Ht Hd Hnn. rewrite save_checkpoint_eq. cbv zeta.
    rewrite Ht, (mkdir_existing _ _ Hd), write_file_into_dir by auto.
    eexists; split; [reflexivity|]. reflexivity. }
  rewrite save_checkpoint_eq. cbv zeta. rewrite H1.
  rewrite write_file_into_dir by auto.
  eexists; split; [reflexivity|]. simpl.
  assert (Hd2 := dir_exists_after_write tree1 (output_dir cfg)
                   (checkpoint_name epoch metric)
                   (Pickle (checkpoint_dict (model s) (optimizer s)
                              epoch metric)) Hd1).
  split; [exact Hd2|]. split; [now apply mkdir_existing|].
  intros s2 e m Ht.
  destruct (Hsave s2 e m _ Ht Hd2) as (s3 & Hs3 & Hf3).
  { intros name E. destruct (decide (output_dir cfg ++ [name]
                                     = output_dir cfg ++ [checkpoint_name epoch metric]))
      as [Heq|Hne].
    - rewrite Heq, lookup_insert_eq in E. discriminate.
    - rewrite lookup_insert_ne in E by congruence. now apply (Hn1 name). }
  exists s3. split; [exact Hs3|]. rewrite Hf3.
  now apply dir_exists_after_write.
Qed.

Lemma write_file_ok (tree tree' : gmap (list string) (node (content image params opt_state)))
    (p : list string) c :
  write_file tree p c = Ok tree' -> tree' = <[p := File c]> tree.
Proof.
  unfold write_file.
  destruct (tree !! p) as [[|c']|]; try discriminate;
    destruct (is_dir _ _); try discriminate; now intros [= <-].
Qed.

(** C7. The file a successful [save_checkpoint] writes holds a dictionary
    with exactly the four keys [epoch], [state_dict], [optimizer_state] and
    [val_top1], bound to the epoch number, the parameters of the model, the
    state of the optimizer and the accuracy; its name reads back as that
    epoch number and that accuracy to three decimals. *)
Theorem checkpoint_contents (epoch : Z) (cfg : TrainConfig) (metric : Q)
    (s s' : tstate) :
  0 <= epoch -> 0 <= Qnum metric ->
  save_checkpoint epoch cfg metric s = (Ok tt, s') ->
  exists d,
    fs (tw s') !! (output_dir cfg ++ [checkpoint_name epoch metric])
    = Some (File (Pickle d)) /\
    dom d = {[ "epoch"; "state_dict"; "optimizer_state"; "val_top1" ]}%string /\
    d !! "epoch"%string = Some (VInt epoch) /\
    d !! "state_dict"%string = Some (VStateDict (state_dict (model s))) /\
    d !! "optimizer_state"%string = Some (VOptimizerState (optimizer s)) /\
    d !! "val_top1"%string = Some (VFloat metric) /\
    decode_name (checkpoint_name epoch metric)
    = Some (Z.to_N epoch, Z.to_N (Fmt.thousandths metric)) /\
    log (tw s') = log (tw s)
                  ++ [EvTorchSave (output_dir cfg
                                   ++ [checkpoint_name epoch metric])].
Proof.
  intros He Hm. rewrite save_checkpoint_eq. cbv zeta.
  destruct (mkdir_parents_exist_ok _ _) as [tree1|e]; [|discriminate].
  destruct (write_file _ _ _) as [tree2|e] eqn:Ew; [|discriminate].
  intros [= <-]. apply write_file_ok in Ew. subst tree2.
  exists (checkpoint_dict (model s) (optimizer s) epoch metric).
  split; [apply lookup_insert_eq|].
  split.
  { unfold checkpoint_dict. rewrite !dom_insert_L, dom_empty_L. set_solver. }
  unfold checkpoint_dict.
  repeat split; try (now simplify_map_eq).
  now apply decode_checkpoint_name.
Qed.

End Saving.

Lemma scenario_output_free (name : string) (n : node (content nat Z Z)) q :
  Scenario.tree !! ("artifacts"%string :: q) <> Some n.
Proof.
  intros E. unfold Scenario.tree in E.
  apply elem_of_list_to_map_2 in E.
  repeat (apply elem_of_cons in E as [E|E]; [discriminate|]).
  now apply elem_of_nil in E.
Qed.

Lemma save_creates_output_dir_witness :
  exists s1, save_checkpoint 1 Scenario.cfg1 (1 # 2) Scenario.s0 = (Ok tt, s1).
Proof.
  destruct (save_creates_output_dir 1 Scenario.cfg1 (1 # 2) Scenario.s0)
    as (s1 & H & _).
  - intros q c [k Hk] E.
    destruct q as [|a q]; [vm_compute in E; discriminate|].
    injection Hk as <- _. now apply (scenario_output_free "" _ _ E).
  - intros name E. now apply (scenario_output_free "" _ _ E).
  - now exists s1.
Defined.

Lemma checkpoint_contents_witness :
  exists d,
    fs (tw (snd (save_checkpoint 3 Scenario.cfg1 (2 # 3) Scenario.s0)))
      !! ["artifacts"; "checkpoints"; "resnet50_epoch003_acc0.667.pt"]%string
    = Some (File (Pickle d)) /\
    d !! "epoch"%string = Some (VInt 3).
Proof.
  destruct (save_checkpoint 3 Scenario.cfg1 (2 # 3) Scenario.s0)
    as [r s1] eqn:E.
  assert (Hr : r = Ok tt) by (apply (f_equal fst) in E; vm_compute in E; now subst r).
  subst r.
  destruct (checkpoint_contents 3 Scenario.cfg1 (2 # 3) Scenario.s0 s1)
    as (d & Hf & _ & He & _); [lia|simpl; lia|exact E|].
  exists d. split; [exact Hf|exact He].
Defined.

(** ** Batches *)

Lemma chunks_fuel_length {A} (fuel k : nat) (l : list A) :
  (0 < k)%nat -> (length l <= fuel)%nat ->
  length (chunks_fuel fuel k l) = ((length l + k - 1) / k)%nat.
Proof.
  intros Hk. revert l. induction fuel as [|fuel IH]; intros l Hl.
  - destruct l; [|simpl in Hl; lia]. simpl.
    symmetry. apply Nat.div_small. lia.
  - destruct l as [|x l']; simpl chunks_fuel.
    + symmetry. apply Nat.div_small. simpl. lia.
    + set (l := x :: l') in *.
      assert (Hn : (0 < length l)%nat) by (subst l; simpl; lia).
      cbn [length]. rewrite IH by (rewrite length_drop; lia).
      rewrite length_drop.
      destruct (Nat.le_gt_cases (length l) k) as [Hle|Hgt].
      * replace (length l - k)%nat with 0%nat by lia.
        rewrite (Nat.div_small (0 + k - 1)) by lia.
        apply (Nat.div_unique _ _ 1 (length l - 1)); lia.
      * replace (length l + k - 1)%nat
          with ((length l - k + k - 1) + 1 * k)%nat by lia.
        rewrite Nat.div_add by lia. lia.
Qed.

Lemma full_chunks_length {A} (fuel k : nat) (l : list A) :
  (0 < k)%nat -> (length l <= fuel)%nat ->
  length (filter (fun c => length c = k) (chunks_fuel fuel k l))
  = (length l / k)%nat.
Proof.
  intros Hk. revert l. induction fuel as [|fuel IH]; intros l Hl.
  - destruct l; [|simpl in Hl; lia]. simpl. symmetry. now apply Nat.div_small.
  - destruct l as [|x l']; simpl chunks_fuel.
    + simpl. symmetry. now apply Nat.div_small.
    + rewrite filter_cons. set (l := x :: l') in *.
      assert (Hrec := IH (drop k l)).
      rewrite length_drop in Hrec. specialize (Hrec ltac:(simpl in *; lia)).
      destruct (decide (length (take k l) = k)) as [Ht|Ht];
        rewrite length_take in Ht.
      * cbn [length]. rewrite Hrec.
        replace (length l) with ((length l - k) + 1 * k)%nat at 2 by lia.
        rewrite Nat.div_add by lia. lia.
      * rewrite Hrec. replace (length l - k)%nat with 0%nat by lia.
        rewrite (Nat.div_small (length l)) by lia.
        now apply Nat.div_small.
Qed.

Section Batches.
Context `{FW : Framework}.

(** A pass over a loader yields [len(loader)] batches. *)
Lemma batches_of_length (l : DataLoader) (order : list (image * nat)) :
  0 < dl_batch_size l -> length order = length (dataset l) ->
  Z.of_nat (length (batches_of l order)) = loader_len l.
Proof.
  intros Hb Ho. unfold batches_of, loader_len, chunks.
  rewrite length_map. set (k := Z.to_nat (dl_batch_size l)).
  assert (Hk : (0 < k)%nat) by (subst k; lia).
  assert (Ek : dl_batch_size l = Z.of_nat k) by (subst k; lia).
  rewrite Ek, <- Ho. destruct (dl_drop_last l).
  - rewrite full_chunks_length by lia. now rewrite Nat2Z.inj_div.
  - rewrite chunks_fuel_length by lia. rewrite Nat2Z.inj_div. f_equal. lia.
Qed.

Lemma loader_batches_length (l : DataLoader) (r : Z) :
  0 < dl_batch_size l -> Z.of_nat (length (loader_batches l r)) = loader_len l.
Proof.
  intros Hb. unfold loader_batches. apply batches_of_length; [exact Hb|].
  destruct (dl_shuffle l); [apply shuffle_length|reflexivity].
Qed.

Lemma loader_iter_ok (l : DataLoader) (w : world) :
  exists bs w',
    loader_iter l w = (Ok bs, w') /\
    fs w' = fs w /\ log w' = log w /\ grad_enabled w' = grad_enabled w /\
    (dl_shuffle l = false -> w' = w) /\
    (0 < dl_batch_size l -> Z.of_nat (length bs) = loader_len l).
Proof.
  exists (loader_batches l (rng w)), (advance_rng l w).
  split; [reflexivity|]. unfold advance_rng.
  destruct (dl_shuffle l); simpl; repeat split; auto; try discriminate;
    apply loader_batches_length.
Qed.

End Batches.

(** Running the script symbolically: the monad and the small actions are
    unfolded, the calls into the framework are left alone. *)
Ltac run :=
  cbv beta iota zeta delta
    [train_batch zero_grad call_model loss_fn scale_backward unscale_
     clip_grad_norm_ map_grad step_optimizer update_scaler no_grad emit
     lift_world emit_w with_model with_world set_grad_enabled
     set_training eval_batch put_fs saved_state scheduler_step
     loader_iter
     mbind M_bind mret M_ret raise gets modify lift_result
     tw model optimizer scaler fs log grad_enabled rng
     fc_out_features state_dict training grad fst snd option_map].

(** ** Passes over a loader without batches *)

Section EmptyLoader.
Context `{FW : Framework}.

Lemma lift_loader_iter (l : DataLoader) (s : tstate) :
  exists bs w',
    lift_world (loader_iter l) s = (Ok bs, with_world (fun _ => w') s) /\
    fs w' = fs (tw s) /\ log w' = log (tw s) /\
    grad_enabled w' = grad_enabled (tw s) /\
    (dl_shuffle l = false -> w' = tw s) /\
    (0 < dl_batch_size l -> Z.of_nat (length bs) = loader_len l).
Proof.
  destruct (loader_iter_ok l (tw s)) as (bs & w' & H & Hrest).
  exists bs, w'. split; [|exact Hrest].
  unfold lift_world. now rewrite H.
Qed.

Ltac no_batches Hb Hz :=
  match goal with
  | |- context [loader_batches ?l ?r] =>
      let H := fresh "Hlen" in
      pose proof (loader_batches_length l r Hb) as H;
      rewrite Hz in H;
      destruct (loader_batches l r); [|simpl in H; lia]
  end.

Lemma train_one_epoch_no_batches (loader : DataLoader) (epoch : Z)
    (cfg : TrainConfig) (s : tstate) :
  0 < dl_batch_size loader -> loader_len loader = 0 ->
  fst (train_one_epoch loader epoch cfg s)
  = Raise (ZeroDivisionError "float division by zero").
Proof.
  intros Hb Hz. unfold train_one_epoch. run. no_batches Hb Hz.
  unfold for_each, py_truediv. run. rewrite Hz. reflexivity.
Qed.

Lemma evaluate_no_batches (loader : DataLoader) (s : tstate) :
  0 < dl_batch_size loader -> loader_len loader = 0 ->
  fst (evaluate loader s)
  = Raise (ZeroDivisionError "float division by zero").
Proof.
  intros Hb Hz. unfold evaluate. run. no_batches Hb Hz.
  unfold for_each, py_truediv. run. rewrite Hz. reflexivity.
Qed.


End EmptyLoader.


(** ** The training iteration *)

Section Iteration.
Context `{FW : Framework}.

Theorem training_iteration_order (epoch : Z) (cfg : TrainConfig)
    (running_loss running_acc : Q) (step : Z)
    (images : list image) (labels : list nat) (s : tstate) :
  let s' := snd (train_batch epoch cfg (running_loss, running_acc, step)
                   (images, labels) s) in
  let p' := snd (forward (state_dict (model s)) (training (model s)) images) in
  (exists tail,
     log (tw s') = log (tw s)
                   ++ iteration_events (training (model s))
                        (grad_enabled (tw s))
                   ++ tail /\
     (tail = [] \/ exists lr loss, tail = [EvPrintStep epoch step lr loss])) /\
  grad (model s')
  = Some (clip_grad_norm 1
            (unscale_grads (scaler s)
               (backward p' images labels (scaler s)))).
Proof.
  destruct s as [[tree l g r] [fc p tr gr] o sc].
  run.
  destruct (forward p tr images) as [logits p1] eqn:Ef.
  run.
  destruct (scaler_step _ _ _) as [o1 p2] eqn:Es.
  run.
  unfold py_mod. destruct (log_every cfg =? 0); run.
  - split; [|reflexivity]. exists []. rewrite <- !app_assoc. simpl. auto.
  - destruct (step `mod` log_every cfg =? 0); run.
    + split; [|reflexivity]. eexists [_]. rewrite <- !app_assoc. simpl.
      split; [reflexivity|]. right. eauto.
    + split; [|reflexivity]. exists []. rewrite <- !app_assoc. simpl. auto.
Qed.

End Iteration.

(** C9 as stated fails on the order: the reset of the gradients opens the
    iteration, and none follows the optimizer step. *)
Lemma iteration_resets_first :
  let l := log (tw (snd (train_batch 1 Scenario.cfg1 (0%Q, 0%Q, 0)
                           Scenario.batch0 Scenario.s0))) in
  head l = Some EvZeroGrad /\ reset_follows_step l = false.
Proof. vm_compute. split; reflexivity. Qed.

(** ** The evaluation pass *)

Section Evaluation.
Context `{FW : Framework}.

Lemma eval_batch_eq (total_loss total_acc : Q) (b : list image * list nat)
    (s : tstate) :
  training (model s) = false ->
  eval_batch (total_loss, total_acc) b s
  = (Ok ((total_loss + batch_loss (state_dict (model s)) b)%Q,
         (total_acc + batch_accuracy (state_dict (model s)) b)%Q),
     saved_state (fs (tw s))
       [EvForward false (grad_enabled (tw s)); EvCrossEntropy] s).
Proof.
  destruct s as [[tree l g r] [fc p tr gr] o sc], b as [images labels].
  simpl. intros ->. unfold batch_loss, batch_accuracy. run.
  pose proof (forward_eval p images) as Hp.
  destruct (forward p false images) as [logits p1]. simpl in Hp. subst p1.
  run. now rewrite <- app_assoc.
Qed.

Lemma eval_loop_eq (bs : list (list image * list nat))
    (total_loss total_acc : Q) (s : tstate) :
  training (model s) = false ->
  for_each eval_batch bs (total_loss, total_acc) s
  = (Ok (Qsum_from total_loss (map (batch_loss (state_dict (model s))) bs),
         Qsum_from total_acc (map (batch_accuracy (state_dict (model s))) bs)),
     saved_state (fs (tw s)) (eval_events (grad_enabled (tw s)) bs) s).
Proof.
  revert total_loss total_acc s.
  induction bs as [|b bs IH]; intros total_loss total_acc s Ht.
  - destruct s as [[tree l g r] m o sc]. unfold eval_events. run. simpl.
    now rewrite app_nil_r.
  - cbn [for_each]. erewrite bind_ok by (now apply eval_batch_eq).
    rewrite IH by (destruct s as [[] [] ? ?]; exact Ht).
    destruct s as [[tree l g r] [fc p tr gr] o sc].
    unfold eval_events, Qsum_from. run. simpl. now rewrite <- app_assoc.
Qed.

(** C8 (amended). On a loader that yields at least one batch, [evaluate]
    returns the average loss and the average accuracy over all the batches,
    computed under the parameters it was given; every forward pass runs in
    evaluation mode with gradient tracking off; besides what it prints, the
    pass changes one thing only, the mode of the model, which it leaves in
    evaluation mode: parameters, gradients, optimizer state, scale, file
    system and the gradient switch are as before. *)
Theorem evaluate_spec (loader : DataLoader) (s : tstate) :
  0 < dl_batch_size loader -> loader_len loader <> 0 ->
  let bs := loader_batches loader (rng (tw s)) in
  let p := state_dict (model s) in
  let s' := snd (evaluate loader s) in
  fst (evaluate loader s)
  = Ok (average (map (batch_loss p) bs), average (map (batch_accuracy p) bs)) /\
  log (tw s') = log (tw s)
                ++ [EvModelEval; EvTqdm "Validation"] ++ eval_events false bs /\
  model s' = model (eval_mode s) /\
  optimizer s' = optimizer s /\
  scaler s' = scaler s /\
  fs (tw s') = fs (tw s) /\
  grad_enabled (tw s') = grad_enabled (tw s) /\
  (dl_shuffle loader = false -> rng (tw s') = rng (tw s)).
Proof.
  intros Hb Hz bs p s'. subst bs p s'.
  pose proof (loader_batches_length loader (rng (tw s)) Hb) as Hlen.
  destruct s as [[tree l g r] [fc p tr gr] o sc].
  unfold evaluate, eval_mode. run. cbn [rng tw] in Hlen.
  rewrite eval_loop_eq by reflexivity. run.
  unfold py_truediv, average. rewrite !length_map, Hlen.
  destruct (Z.eqb_spec (loader_len loader) 0) as [E|_]; [contradiction|].
  unfold advance_rng.
  destruct (dl_shuffle loader); run; rewrite <- ?app_assoc;
    repeat split; try reflexivity; discriminate.
Qed.

End Evaluation.

Lemma evaluate_spec_witness :
  is_ok (fst (evaluate Scenario.val_loader Scenario.s0)) = true.
Proof.
  rewrite (proj1 (evaluate_spec Scenario.val_loader Scenario.s0
                    ltac:(reflexivity) ltac:(vm_compute; discriminate))).
  reflexivity.
Defined.

(** C8 as stated fails twice: the pass leaves the model in another mode
    than it found it, and over an empty validation set it returns nothing. *)
Lemma evaluate_switches_mode :
  training (model Scenario.s0) = true /\
  training (model (snd (evaluate Scenario.val_loader Scenario.s0))) = false /\
  is_ok (fst (evaluate Scenario.empty_loader Scenario.s0)) = false.
Proof. vm_compute. repeat split; reflexivity. Qed.

(** ** The loop over the epochs *)

Section Quiet.
Context `{FW : Framework}.

Lemma quiet_step_refl s : quiet_step s s.
Proof. split; [reflexivity|]. exists []. now rewrite app_nil_r. Qed.

Lemma quiet_step_trans s1 s2 s3 :
  quiet_step s1 s2 -> quiet_step s2 s3 -> quiet_step s1 s3.
Proof.
  intros (Hf1 & e1 & Hl1 & HP1) (Hf2 & e2 & Hl2 & HP2).
  split; [congruence|]. exists (e1 ++ e2).
  split; [now rewrite Hl2, Hl1, app_assoc|]. now apply Forall_app.
Qed.

Lemma Quiet_bind {A B} (m : M tstate A) (f : A -> M tstate B) :
  Quiet m -> (forall a, Quiet (f a)) -> Quiet (m ≫= f).
Proof.
  intros Hm Hf s. specialize (Hm s). unfold mbind, M_bind.
  destruct (m s) as [[a|e] s1]; simpl in *; [|exact Hm].
  eapply quiet_step_trans; [exact Hm|apply Hf].
Qed.

Lemma Quiet_ret {A} (a : A) : Quiet (mret a).
Proof. intros s. apply quiet_step_refl. Qed.

Lemma Quiet_lift_result {A} (r : result A) : Quiet (lift_result r).
Proof. intros s. apply quiet_step_refl. Qed.

Lemma Quiet_gets {A} (f : tstate -> A) : Quiet (gets f).
Proof. intros s. apply quiet_step_refl. Qed.

Lemma Quiet_emit (e : event) : inner e -> Quiet (emit e).
Proof.
  intros He [[tree l g r] m o sc]. split; [reflexivity|].
  exists [e]. split; [reflexivity|]. now constructor.
Qed.

Lemma Quiet_modify (f : tstate -> tstate) :
  (forall s, tw (f s) = tw s) -> Quiet (modify f).
Proof.
  intros Hf s. unfold modify, quiet_step. simpl. rewrite (Hf s).
  split; [reflexivity|]. exists []. now rewrite app_nil_r.
Qed.

Lemma Quiet_for_each {A B} (body : B -> A -> M tstate B) (l : list A) :
  (forall b a, Quiet (body b a)) -> forall acc, Quiet (for_each body l acc).
Proof.
  intros Hb. induction l as [|x l IH]; intros acc; simpl.
  - apply Quiet_ret.
  - apply Quiet_bind; [apply Hb|]. intros a. apply IH.
Qed.

Lemma Quiet_no_grad {A} (m : M tstate A) : Quiet m -> Quiet (no_grad m).
Proof.
  intros Hm s. unfold no_grad.
  specialize (Hm (with_world (set_grad_enabled false) s)).
  destruct (m _) as [r s1]. destruct s as [[tree l g rr] mm o sc].
  destruct s1 as [[tree1 l1 g1 r1] m1 o1 sc1]. exact Hm.
Qed.

Lemma Quiet_loader_iter (l : DataLoader) : Quiet (lift_world (loader_iter l)).
Proof.
  intros [[tree lg g r] m o sc]. unfold lift_world, loader_iter, advance_rng.
  simpl. destruct (dl_shuffle l); simpl;
    (split; [reflexivity|]); exists []; now rewrite app_nil_r.
Qed.

Lemma Total_bind {A B} (m : M tstate A) (f : A -> M tstate B) :
  Total m -> (forall a, Total (f a)) -> Total (m ≫= f).
Proof.
  intros Hm Hf s. specialize (Hm s). unfold mbind, M_bind.
  destruct (m s) as [[a|e] s1]; simpl in *; [apply Hf|discriminate].
Qed.

Lemma Total_for_each {A B} (body : B -> A -> M tstate B) (l : list A) :
  (forall b a, Total (body b a)) -> forall acc, Total (for_each body l acc).
Proof.
  intros Hb. induction l as [|x l IH]; intros acc; simpl.
  - intros s. reflexivity.
  - apply Total_bind; [apply Hb|]. intros a. apply IH.
Qed.

Ltac quiet :=
  repeat first
    [ apply Quiet_bind; [|intros ?]
    | apply Quiet_ret | apply Quiet_lift_result | apply Quiet_gets
    | apply Quiet_emit; split; reflexivity
    | apply Quiet_modify; intros [? ? ? ?]; reflexivity
    | apply Quiet_no_grad
    | apply Quiet_loader_iter
    | apply Quiet_for_each; intros ? ?
    | match goal with
      | |- Quiet (let '(_, _) := ?x in _) => destruct x
      | |- Quiet (if ?b then _ else _) => destruct b
      end ].

Lemma Quiet_train_batch epoch cfg acc batch : Quiet (train_batch epoch cfg acc batch).
Proof.
  unfold train_batch, zero_grad, call_model, loss_fn, scale_backward, unscale_,
    clip_grad_norm_, map_grad, step_optimizer, update_scaler.
  destruct acc as [[? ?] ?], batch as [? ?].
  quiet.
  all: try (apply Quiet_modify; intros s; destruct (grad (model s)); try destruct (scaler_step _ _ _); reflexivity).
Qed.

Lemma Quiet_train_one_epoch loader epoch cfg :
  Quiet (train_one_epoch loader epoch cfg).
Proof.
  unfold train_one_epoch, set_training. quiet. apply Quiet_train_batch.
Qed.

Lemma Quiet_evaluate loader : Quiet (evaluate loader).
Proof.
  unfold evaluate, set_training, eval_batch, call_model, loss_fn. quiet.
Qed.
Lemma epoch_body_inv (cfg : TrainConfig) (train_loader val_loader : DataLoader)
    (best : Q) (epoch : Z) (s s' : tstate) (best' : Q) :
  epoch_body cfg train_loader val_loader best epoch s = (Ok best', s') ->
  exists evs tl ta vl va,
    Forall inner evs /\
    ((py_gt va best = true /\ best' = va /\
      log (tw s') = log (tw s) ++ evs
                    ++ [EvPrintEpoch epoch tl ta vl va;
                        EvTorchSave (output_dir cfg
                                     ++ [checkpoint_name epoch va])]) \/
     (py_gt va best = false /\ best' = best /\
      log (tw s') = log (tw s) ++ evs ++ [EvPrintEpoch epoch tl ta vl va])).
Proof.
  unfold epoch_body. intros H.
  apply bind_ok_inv in H as ([tl ta] & s1 & H1 & H).
  apply bind_ok_inv in H as ([vl va] & s2 & H2 & H).
  pose proof (Quiet_train_one_epoch train_loader epoch cfg s) as Q1.
  rewrite H1 in Q1. simpl in Q1.
  pose proof (Quiet_evaluate val_loader s1) as Q2.
  rewrite H2 in Q2. simpl in Q2.
  destruct (quiet_step_trans _ _ _ Q1 Q2) as (_ & evs & Hl & Hin).
  apply bind_ok_inv in H as ([] & s3 & H3 & H).
  apply bind_ok_inv in H as ([] & s4 & H4 & H).
  assert (Hl4 : log (tw s4)
                = log (tw s) ++ (evs ++ [EvSchedulerStep])
                  ++ [EvPrintEpoch epoch tl ta vl va]).
  { destruct s2 as [[tree l g r] m o sc].
    unfold scheduler_step in H3. revert H3 H4. run.
    intros [= <-] [= <-]. simpl in *. rewrite Hl.
    now rewrite <- !app_assoc. }
  exists (evs ++ [EvSchedulerStep]), tl, ta, vl, va.
  split. { apply Forall_app. split; [exact Hin|]. repeat constructor. }
  destruct (py_gt va best) eqn:Egt.
  - left. apply bind_ok_inv in H as ([] & s5 & H5 & H).
    injection H as <- <-. repeat split.
    rewrite save_checkpoint_eq in H5. cbv zeta in H5.
    destruct (mkdir_parents_exist_ok _ _); [|discriminate].
    destruct (write_file _ _ _); [|discriminate].
    injection H5 as <-. destruct s4 as [[tree l g r] m o sc].
    simpl in *. rewrite Hl4. now rewrite <- !app_assoc.
  - right. injection H as <- <-. repeat split. exact Hl4.
Qed.

End Quiet.

Lemma py_gt_true (a b : Q) : py_gt a b = true <-> (b < a)%Q.
Proof.
  unfold py_gt. rewrite negb_true_iff, <- not_true_iff_false, Qle_bool_iff.
  split; [apply Qnot_le_lt|apply Qlt_not_le].
Qed.

Lemma py_gt_false (a b : Q) : py_gt a b = false <-> (a <= b)%Q.
Proof. unfold py_gt. rewrite negb_false_iff. apply Qle_bool_iff. Qed.

Lemma last_cons_default {A} (a d : A) (l : list A) :
  List.last (a :: l) d = List.last l a.
Proof.
  revert a d. induction l as [|b l IH]; intros a d; [reflexivity|].
  change (List.last (b :: l) d = List.last (b :: l) a).
  now rewrite !IH.
Qed.

Lemma epoch_view_inner (evs rest : list event) :
  Forall inner evs -> epoch_view (evs ++ rest) = epoch_view rest.
Proof.
  induction 1 as [|e evs [He _] _ IH]; [reflexivity|].
  destruct e; try discriminate; exact IH.
Qed.

Lemma filter_save_inner (evs : list event) :
  Forall inner evs -> filter (fun e => is_save e) evs = [].
Proof.
  induction 1 as [|e evs [_ He] _ IH]; [reflexivity|].
  rewrite filter_cons. destruct (decide _) as [Hd|_]; [|exact IH].
  rewrite He in Hd. now destruct Hd.
Qed.

Lemma epoch_view_quiet e tl ta vl va (rest : list event) :
  starts_quiet rest ->
  epoch_view (EvPrintEpoch e tl ta vl va :: rest)
  = (e, va, None) :: epoch_view rest.
Proof. destruct rest as [|[] rest]; simpl; intros H; try reflexivity. destruct H. Qed.

Lemma starts_quiet_chunk (evs tail : list event) e tl ta vl va :
  Forall inner evs ->
  starts_quiet (evs ++ EvPrintEpoch e tl ta vl va :: tail).
Proof.
  intros H. destruct H as [|x evs [_ Hx] _]; [exact I|].
  destruct x; try exact I. discriminate.
Qed.

Section Run.
Context `{FW : Framework}.

Lemma run_from (cfg : TrainConfig) (train_loader val_loader : DataLoader)
    (es : list Z) (b0 : Q) (s : tstate) (b' : Q) (s' : tstate) :
  for_each (epoch_body cfg train_loader val_loader) es b0 s = (Ok b', s') ->
  exists evs,
    log (tw s') = log (tw s) ++ evs /\
    starts_quiet evs /\
    map (fun x => x.1.1) (epoch_view evs) = es /\
    improvement_policy (output_dir cfg) b0 (epoch_view evs) b' /\
    filter (fun e => is_save e) evs
    = map EvTorchSave (omap (fun x => x.2) (epoch_view evs)).
Proof.
  revert b0 s. induction es as [|e es IH]; intros b0 s H.
  - injection H as <- <-. exists []. rewrite app_nil_r.
    split; [reflexivity|]. split; [exact I|]. split; [reflexivity|].
    split; [|reflexivity]. split; [constructor|]. split; [|reflexivity].
    intros pre x post Hv. now destruct pre.
  - cbn [for_each] in H. apply bind_ok_inv in H as (b1 & s1 & Hb & Hrest).
    apply epoch_body_inv in Hb as (evs1 & tl & ta & vl & va & Hin & Hcase).
    apply IH in Hrest as (evs2 & Hl2 & Hq2 & Hmap2 & (Hf2 & Hiff2 & Hlast2) & Hs2).
    destruct Hcase as [(Egt & -> & Hl) | (Egt & -> & Hl)].
    + set (f := output_dir cfg ++ [checkpoint_name e va]) in *.
      exists (evs1 ++ EvPrintEpoch e tl ta vl va :: EvTorchSave f :: evs2).
      assert (Ev : epoch_view (evs1 ++ EvPrintEpoch e tl ta vl va
                                 :: EvTorchSave f :: evs2)
                   = (e, va, Some f) :: epoch_view evs2)
        by now rewrite epoch_view_inner.
      rewrite Ev. apply py_gt_true in Egt.
      split. { rewrite Hl2, Hl, <- !app_assoc. reflexivity. }
      split. { now apply starts_quiet_chunk. }
      split. { simpl. now rewrite Hmap2. }
      split.
      * split; [constructor; [now right|exact Hf2]|]. split.
        -- intros pre x post Hv. destruct pre as [|x0 pre].
           ++ injection Hv as <-. simpl. split; [|now eexists].
              intros _. split; [exact Egt|constructor].
           ++ injection Hv as <- Hv. rewrite (Hiff2 _ _ _ Hv). simpl.
              rewrite Forall_cons. simpl. split.
              ** intros [H1 H2]. repeat split; auto.
                 eapply Qlt_trans; eauto.
              ** intros [_ [H1 H2]]. now split.
        -- change (saved_accs ((e, va, Some f) :: epoch_view evs2))
             with (va :: saved_accs (epoch_view evs2)).
           rewrite last_cons_default. exact Hlast2.
      * rewrite filter_app, (filter_save_inner _ Hin). cbn [app].
        rewrite filter_cons_False by (simpl; tauto).
        rewrite filter_cons_True by exact I. now rewrite Hs2.
    + exists (evs1 ++ EvPrintEpoch e tl ta vl va :: evs2).
      assert (Ev : epoch_view (evs1 ++ EvPrintEpoch e tl ta vl va :: evs2)
                   = (e, va, None) :: epoch_view evs2)
        by now rewrite epoch_view_inner, epoch_view_quiet.
      rewrite Ev. apply py_gt_false in Egt.
      split. { rewrite Hl2, Hl, <- !app_assoc. reflexivity. }
      split. { now apply starts_quiet_chunk. }
      split. { simpl. now rewrite Hmap2. }
      split.
      * split; [constructor; [now left|exact Hf2]|]. split.
        -- intros pre x post Hv. destruct pre as [|x0 pre].
           ++ injection Hv as <-. simpl. split.
              ** intros [? ?]. discriminate.
              ** intros [H1 _]. exfalso. eapply Qlt_not_le; eauto.
           ++ injection Hv as <- Hv. rewrite (Hiff2 _ _ _ Hv). simpl.
              rewrite Forall_cons. simpl. split.
              ** intros [H1 H2]. repeat split; auto.
                 eapply Qle_lt_trans; eauto.
              ** intros [H1 [_ H2]]. now split.
        -- exact Hlast2.
      * rewrite filter_app, (filter_save_inner _ Hin). cbn [app].
        rewrite filter_cons_False by (simpl; tauto). now rewrite Hs2.
Qed.

End Run.

(** ** Passes that do not raise *)

Section Totality.
Context `{FW : Framework}.

Lemma Total_ret {A} (a : A) : Total (mret a).
Proof. intros s. reflexivity. Qed.

Lemma Total_gets {A} (f : tstate -> A) : Total (gets f).
Proof. intros s. reflexivity. Qed.

Lemma Total_modify (f : tstate -> tstate) : Total (modify f).
Proof. intros s. reflexivity. Qed.

Lemma Total_emit (e : event) : Total (emit e).
Proof. intros s. reflexivity. Qed.

Lemma Total_lift_ok {A} (a : A) : Total (lift_result (Ok a)).
Proof. intros s. reflexivity. Qed.

Lemma Total_no_grad {A} (m : M tstate A) : Total m -> Total (no_grad m).
Proof.
  intros Hm s. unfold no_grad.
  specialize (Hm (with_world (set_grad_enabled false) s)).
  now destruct (m _) as [r s1].
Qed.


Lemma Total_loader_iter (l : DataLoader) : Total (lift_world (loader_iter l)).
Proof. intros s. reflexivity. Qed.

Ltac total :=
  repeat first
    [ apply Total_bind; [|intros ?]
    | apply Total_ret | apply Total_gets | apply Total_emit
    | apply Total_modify | apply Total_lift_ok
    | apply Total_no_grad
    | apply Total_loader_iter
    | apply Total_for_each; intros ? ?
    | match goal with
      | |- Total (let '(_, _) := ?x in _) => destruct x
      | |- Total (if ?b then _ else _) => destruct b
      end ].

Lemma Total_train_batch epoch cfg acc batch :
  log_every cfg <> 0 -> Total (train_batch epoch cfg acc batch).
Proof.
  intros Hl.
  unfold train_batch, zero_grad, call_model, loss_fn, scale_backward, unscale_,
    clip_grad_norm_, map_grad, step_optimizer, update_scaler, py_mod.
  destruct acc as [[? ?] ?], batch as [? ?].
  destruct (Z.eqb_spec (log_every cfg) 0) as [|_]; [contradiction|].
  total.
Qed.

Lemma Total_train_one_epoch loader epoch cfg :
  log_every cfg <> 0 -> loader_len loader <> 0 ->
  Total (train_one_epoch loader epoch cfg).
Proof.
  intros Hl Hn. unfold train_one_epoch, set_training, py_truediv.
  destruct (Z.eqb_spec (loader_len loader) 0) as [|_]; [contradiction|].
  total. now apply Total_train_batch.
Qed.

Lemma Total_evaluate loader : loader_len loader <> 0 -> Total (evaluate loader).
Proof.
  intros Hn. unfold evaluate, set_training, eval_batch, call_model, loss_fn,
    py_truediv.
  destruct (Z.eqb_spec (loader_len loader) 0) as [|_]; [contradiction|].
  total.
Qed.

End Totality.

(** ** A run of one epoch *)

Section SmallRun.
Context `{FW : Framework}.

Lemma mkdir_keeps_names_free
    (tree tree1 : gmap (list string) (node (content image params opt_state)))
    (p : list string) :
  mkdir_parents_exist_ok tree p = Ok tree1 ->
  (forall name, tree !! (p ++ [name]) <> Some Dir) ->
  forall name, tree1 !! (p ++ [name]) <> Some Dir.
Proof.
  intros H1 Hn name E.
  destruct (tree !! (p ++ [name])) as [n|] eqn:E0.
  - pose proof (mkdir_from_keeps _ _ _ _ _ _ H1 E0) as E1.
    rewrite E in E1. injection E1 as <-. now apply (Hn name).
  - destruct (mkdir_from_fresh _ _ _ _ _ H1 E0 E) as (r & Hr & Er).
    simpl in Er. apply prefix_length in Hr.
    rewrite <- Er, length_app in Hr. simpl in Hr. lia.
Qed.

Lemma save_checkpoint_succeeds (epoch : Z) (cfg : TrainConfig) (metric : Q)
    (s : tstate) :
  dir_creatable (fs (tw s)) (output_dir cfg) ->
  (forall name, fs (tw s) !! (output_dir cfg ++ [name]) <> Some Dir) ->
  exists s1, save_checkpoint epoch cfg metric s = (Ok tt, s1).
Proof.
  intros Hc Hn.
  destruct (mkdir_from_creatable (fs (tw s)) [] (output_dir cfg))
    as [tree1 H1].
  { intros q c _ Hp. now apply Hc. }
  fold (mkdir_parents_exist_ok (fs (tw s)) (output_dir cfg)) in H1.
  rewrite save_checkpoint_eq. cbv zeta. rewrite H1.
  rewrite write_file_into_dir.
  - eauto.
  - eapply mkdir_makes_dir; eauto.
  - eapply mkdir_keeps_names_free; eauto.
Qed.

Lemma epoch_body_ok (cfg : TrainConfig) (train_loader val_loader : DataLoader)
    (best : Q) (epoch : Z) (s : tstate) :
  log_every cfg <> 0 ->
  loader_len train_loader <> 0 -> loader_len val_loader <> 0 ->
  dir_creatable (fs (tw s)) (output_dir cfg) ->
  (forall name, fs (tw s) !! (output_dir cfg ++ [name]) <> Some Dir) ->
  exists best' s',
    epoch_body cfg train_loader val_loader best epoch s = (Ok best', s').
Proof.
  intros Hl Ht Hv Hc Hn. unfold epoch_body.
  pose proof (Total_train_one_epoch train_loader epoch cfg Hl Ht s) as T1.
  pose proof (Quiet_train_one_epoch train_loader epoch cfg s) as [F1 _].
  destruct (train_one_epoch train_loader epoch cfg s) as [[[tl ta]|e] s1]
    eqn:E1; [|discriminate]. simpl in F1. clear T1.
  rewrite (bind_ok _ _ _ _ _ E1).
  pose proof (Total_evaluate val_loader Hv s1) as T2.
  pose proof (Quiet_evaluate val_loader s1) as [F2 _].
  destruct (evaluate val_loader s1) as [[[vl va]|e] s2] eqn:E2;
    [|discriminate].
  simpl in F2. clear T2.
  rewrite (bind_ok _ _ _ _ _ E2).
  destruct s2 as [[tree l g r] m o sc]. unfold scheduler_step. run.
  simpl in F2. rewrite F1 in F2. subst tree.
  destruct (py_gt va best); run; [|eauto].
  match goal with
  | |- context [save_checkpoint epoch cfg va ?s4] =>
      destruct (save_checkpoint_succeeds epoch cfg va s4 Hc Hn) as [s5 H5];
      rewrite H5
  end.
  eauto.
Qed.

Lemma filter_summary_inner (evs : list event) :
  Forall inner evs -> filter (fun e => is_summary e) evs = [].
Proof.
  induction 1 as [|e evs [He _] _ IH]; [reflexivity|].
  rewrite filter_cons_False; [exact IH|]. now rewrite He.
Qed.

End SmallRun.

(** * Further properties *)

(** ** The training pass *)

(** As [run], but the bodies of the loops stay folded. *)
Ltac run_outer :=
  cbv beta iota zeta delta
    [zero_grad call_model loss_fn scale_backward unscale_
     clip_grad_norm_ map_grad step_optimizer update_scaler no_grad emit
     lift_world emit_w with_model with_world set_grad_enabled
     set_training put_fs saved_state scheduler_step
     loader_iter
     mbind M_bind mret M_ret raise gets modify lift_result
     tw model optimizer scaler fs log grad_enabled rng
     fc_out_features state_dict training grad fst snd option_map].

Section TrainingPass.
Context `{FW : Framework}.

Lemma train_batch_run (epoch : Z) (cfg : TrainConfig)
    (running_loss running_acc : Q) (step : Z)
    (images : list image) (labels : list nat) (s : tstate) :
  log_every cfg <> 0 ->
  exists loss acc1 s' tail,
    train_batch epoch cfg (running_loss, running_acc, step) (images, labels) s
    = (Ok ((running_loss + loss)%Q, (running_acc + acc1)%Q, step + 1), s') /\
    log (tw s') = log (tw s)
                  ++ iteration_events (training (model s)) (grad_enabled (tw s))
                  ++ tail /\
    printed_steps tail
    = (if bool_decide (step `mod` log_every cfg = 0) then [step] else []) /\
    Forall inner tail /\
    length (filter (fun e => is_optimizer_step e) tail) = 0%nat /\
    forward_modes tail = [] /\ backward_flags tail = [] /\
    training (model s') = training (model s) /\
    grad_enabled (tw s') = grad_enabled (tw s).
Proof.
  intros Hl. destruct s as [[tree l g r] [fc p tr gr] o sc].
  run.
  destruct (forward p tr images) as [logits p1] eqn:Ef. run.
  destruct (scaler_step _ _ _) as [o1 p2] eqn:Es. run.
  unfold py_mod. destruct (Z.eqb_spec (log_every cfg) 0) as [|_];
    [contradiction|]. run.
  destruct (Z.eqb_spec (step `mod` log_every cfg) 0) as [E|E]; run.
  - eexists _, _, _, [_]. split; [reflexivity|]. cbn [tw log model training
      grad_enabled]. rewrite <- !app_assoc.
    split; [reflexivity|]. rewrite bool_decide_true by exact E.
    repeat split; try reflexivity. repeat constructor.
  - eexists _, _, _, []. split; [reflexivity|]. cbn [tw log model training
      grad_enabled]. rewrite <- !app_assoc.
    split; [reflexivity|]. rewrite bool_decide_false by exact E.
    repeat split; try reflexivity. constructor.
Qed.


Lemma train_batch_mod_zero (epoch : Z) (cfg : TrainConfig)
    (running_loss running_acc : Q) (step : Z)
    (images : list image) (labels : list nat) (s : tstate) :
  log_every cfg = 0 ->
  exists s',
    train_batch epoch cfg (running_loss, running_acc, step) (images, labels) s
    = (Raise (ZeroDivisionError "integer modulo by zero"), s') /\
    log (tw s') = log (tw s)
                  ++ iteration_events (training (model s)) (grad_enabled (tw s)).
Proof.
  intros Hl. destruct s as [[tree l g r] [fc p tr gr] o sc].
  run.
  destruct (forward p tr images) as [logits p1] eqn:Ef. run.
  destruct (scaler_step _ _ _) as [o1 p2] eqn:Es. run.
  unfold py_mod. rewrite Hl. cbn [Z.eqb]. run.
  eexists. split; [reflexivity|]. cbn [tw log model training grad_enabled].
  now rewrite <- !app_assoc.
Qed.

Lemma train_loop_run (epoch : Z) (cfg : TrainConfig)
    (bs : list (list image * list nat))
    (running_loss running_acc : Q) (step : Z) (s : tstate) :
  log_every cfg <> 0 ->
  exists rl ra s' evs,
    for_each (train_batch epoch cfg) bs (running_loss, running_acc, step) s
    = (Ok (rl, ra, step + Z.of_nat (length bs)), s') /\
    log (tw s') = log (tw s) ++ evs /\
    length (filter (fun e => is_optimizer_step e) evs) = length bs /\
    forward_modes evs
    = replicate (length bs) (training (model s), grad_enabled (tw s)) /\
    backward_flags evs = replicate (length bs) true /\
    printed_steps evs
    = filter (fun k => k `mod` log_every cfg = 0)
        (seqZ step (Z.of_nat (length bs))) /\
    training (model s') = training (model s) /\
    grad_enabled (tw s') = grad_enabled (tw s).
Proof.
  intros Hl. revert running_loss running_acc step s.
  induction bs as [|[images labels] bs IH]; intros rl0 ra0 step s.
  - exists rl0, ra0, s, []. cbn [for_each length Z.of_nat].
    rewrite Z.add_0_r, app_nil_r. repeat split; reflexivity.
  - destruct (train_batch_run epoch cfg rl0 ra0 step images labels s Hl)
      as (loss & acc1 & s1 & tail & E1 & L1 & P1 & _ & O1 & F1 & B1 & T1 & G1).
    destruct (IH (rl0 + loss)%Q (ra0 + acc1)%Q (step + 1) s1)
      as (rl & ra & s' & evs & E2 & L2 & O2 & F2 & B2 & P2 & T2 & G2).
    exists rl, ra, s',
      (iteration_events (training (model s)) (grad_enabled (tw s))
       ++ tail ++ evs).
    split.
    { cbn [for_each]. rewrite (bind_ok _ _ _ _ _ E1), E2.
      replace (step + Z.of_nat (length ((images, labels) :: bs)))
        with (step + 1 + Z.of_nat (length bs))
        by (cbn [length]; lia).
      reflexivity. }
    split. { rewrite L2, L1, <- !app_assoc. reflexivity. }
    split.
    { rewrite !filter_app, !length_app, O1, O2. reflexivity. }
    split.
    { unfold forward_modes in *. rewrite !omap_app, F1, F2, T1, G1.
      reflexivity. }
    split.
    { unfold backward_flags in *. rewrite !omap_app, B1, B2. reflexivity. }
    split.
    { unfold printed_steps in *. rewrite !omap_app, P1, P2.
      cbn [length]. rewrite Nat2Z.inj_succ.
      rewrite (seqZ_cons step) by lia.
      rewrite Z.pred_succ, filter_cons.
      replace (Z.succ step) with (step + 1) by lia.
      destruct (decide (step `mod` log_every cfg = 0)) as [E|E].
      - rewrite bool_decide_true by exact E. reflexivity.
      - rewrite bool_decide_false by exact E. reflexivity. }
    split; congruence.
Qed.

Lemma advance_rng_same (l : DataLoader) (w : world) :
  log (advance_rng l w) = log w /\
  grad_enabled (advance_rng l w) = grad_enabled w /\
  fs (advance_rng l w) = fs w.
Proof. unfold advance_rng. destruct (dl_shuffle l); auto. Qed.

(** X1. A training pass with a nonzero logging cadence starts by putting
    the model in training mode, then takes exactly one optimizer step per
    batch of the loader, [len(loader)] in all; every forward pass runs in
    training mode, whatever the mode before the pass; every backward pass
    starts from reset gradients; and the steps whose line is printed are
    the multiples of [log_every] among [0 .. len(loader) - 1].  This holds
    whether or not the final division succeeds. *)
Theorem train_one_epoch_steps (loader : DataLoader) (epoch : Z)
    (cfg : TrainConfig) (s : tstate) :
  log_every cfg <> 0 -> 0 < dl_batch_size loader ->
  exists evs,
    log (tw (snd (train_one_epoch loader epoch cfg s)))
    = log (tw s) ++ EvModelTrain :: EvTqdm "[train]" :: evs /\
    Z.of_nat (length (filter (fun e => is_optimizer_step e) evs))
    = loader_len loader /\
    forward_modes evs
    = replicate (Z.to_nat (loader_len loader)) (true, grad_enabled (tw s)) /\
    backward_flags evs = replicate (Z.to_nat (loader_len loader)) true /\
    printed_steps evs
    = filter (fun k => k `mod` log_every cfg = 0)
        (seqZ 0 (loader_len loader)).
Proof.
  intros Hl Hb.
  pose proof (loader_batches_length loader (rng (tw s)) Hb) as Hlen.
  destruct s as [[tree l g r] [fc p tr gr] o sc].
  unfold train_one_epoch. run_outer. cbn [rng tw] in Hlen.
  match goal with
  | |- context [for_each _ _ _ ?s1] =>
      destruct (train_loop_run epoch cfg (loader_batches loader r)
                  0%Q 0%Q 0 s1 Hl)
        as (rl & ra & s' & evs & E & L & O & F & B & P & _ & _);
      rewrite E
  end.
  exists evs. run. unfold py_truediv.
  cbn [tw model training] in L, F.
  destruct (advance_rng_same loader
              {| fs := tree;
                 log := (l ++ [EvModelTrain]) ++ [EvTqdm "[train]"];
                 grad_enabled := g; rng := r |}) as (Al & Ag & _).
  rewrite Al in L. rewrite Ag in F. cbn [log grad_enabled] in L, F.
  rewrite <- !app_assoc in L. cbn [app] in L.
  rewrite <- Hlen, Nat2Z.id.
  split; [|split; [now rewrite O|auto]].
  destruct (Z.of_nat _ =? 0); run; exact L.
Qed.

(** X2. With [log_every = 0] and at least one batch, the training pass
    raises [ZeroDivisionError] from [step % log_every] at the end of the
    first iteration: by then that iteration's optimizer step has been
    taken, and no other iteration runs. *)
Theorem zero_log_every_raises (loader : DataLoader) (epoch : Z)
    (cfg : TrainConfig) (s : tstate) :
  log_every cfg = 0 -> 0 < dl_batch_size loader -> loader_len loader <> 0 ->
  fst (train_one_epoch loader epoch cfg s)
  = Raise (ZeroDivisionError "integer modulo by zero") /\
  log (tw (snd (train_one_epoch loader epoch cfg s)))
  = log (tw s) ++ EvModelTrain :: EvTqdm "[train]"
               :: iteration_events true (grad_enabled (tw s)).
Proof.
  intros Hl Hb Hn.
  pose proof (loader_batches_length loader (rng (tw s)) Hb) as Hlen.
  destruct s as [[tree l g r] [fc p tr gr] o sc].
  unfold train_one_epoch. run_outer. cbn [rng tw] in Hlen.
  destruct (loader_batches loader r) as [|[images labels] bs].
  { simpl in Hlen. now symmetry in Hlen. }
  match goal with
  | |- context [for_each _ _ _ ?s1] =>
      destruct (train_batch_mod_zero epoch cfg 0%Q 0%Q 0 images labels s1 Hl)
        as (s' & E & L)
  end.
  cbn [for_each]. rewrite (bind_raise _ _ _ _ _ E). cbv beta iota.
  cbn [fst snd].
  split; [reflexivity|].
  change (log (tw s')
          = l ++ EvModelTrain :: EvTqdm "[train]" :: iteration_events true g).
  rewrite L. cbn [tw model training].
  destruct (advance_rng_same loader
              {| fs := tree;
                 log := (l ++ [EvModelTrain]) ++ [EvTqdm "[train]"];
                 grad_enabled := g; rng := r |}) as (Al & Ag & _).
  rewrite Al, Ag. cbn [log grad_enabled].
  now rewrite <- !app_assoc.
Qed.

End TrainingPass.

Lemma train_one_epoch_steps_witness :
  exists evs,
    log (tw (snd (train_one_epoch
                    (Scenario.loader_of 2 true true Scenario.train_data)
                    1 Scenario.cfg1 Scenario.s0)))
    = log (tw Scenario.s0) ++ EvModelTrain :: EvTqdm "[train]" :: evs /\
    Z.of_nat (length (filter (fun e => is_optimizer_step e) evs)) = 2.
Proof.
  destruct (train_one_epoch_steps
              (Scenario.loader_of 2 true true Scenario.train_data)
              1 Scenario.cfg1 Scenario.s0) as (evs & H1 & H2 & _).
  - discriminate.
  - reflexivity.
  - exists evs. split; [exact H1|]. rewrite H2. reflexivity.
Defined.

Lemma zero_log_every_raises_witness :
  fst (train_one_epoch (Scenario.loader_of 2 true true Scenario.train_data)
         1 (Scenario.with_log_every 0 Scenario.cfg1) Scenario.s0)
  = Raise (ZeroDivisionError "integer modulo by zero").
Proof.
  destruct (zero_log_every_raises
              (Scenario.loader_of 2 true true Scenario.train_data)
              1 (Scenario.with_log_every 0 Scenario.cfg1) Scenario.s0)
    as (H & _).
  - reflexivity.
  - reflexivity.
  - vm_compute. discriminate.
  - exact H.
Defined.

(** ** [accuracy] *)

Lemma argmax_from_spec (pre row : list Q) (best : Q) (besti : nat) :
  pre !! besti = Some best ->
  (forall j x, pre !! j = Some x -> (x <= best)%Q) ->
  (forall j x, (j < besti)%nat -> pre !! j = Some x -> (x < best)%Q) ->
  exists m,
    (pre ++ row) !! argmax_from best besti (length pre) row = Some m /\
    (forall j x, (pre ++ row) !! j = Some x -> (x <= m)%Q) /\
    (forall j x, (j < argmax_from best besti (length pre) row)%nat ->
                 (pre ++ row) !! j = Some x -> (x < m)%Q).
Proof.
  revert pre best besti. induction row as [|x row IH];
    intros pre best besti Hb Hmax Hfirst.
  - rewrite app_nil_r. exists best. auto.
  - cbn [argmax_from].
    replace (pre ++ x :: row) with ((pre ++ [x]) ++ row)
      by now rewrite <- app_assoc.
    replace (S (length pre)) with (length (pre ++ [x]))
      by (rewrite length_app; simpl; lia).
    destruct (py_gt x best) eqn:E.
    + apply py_gt_true in E. apply IH.
      * rewrite lookup_app_r by lia. now rewrite Nat.sub_diag.
      * intros j y Hj. apply lookup_app_Some in Hj as [Hj|[_ Hj]].
        -- apply Qlt_le_weak. eapply Qle_lt_trans; [|exact E]. eauto.
        -- destruct (j - length pre)%nat; [|discriminate].
           injection Hj as <-. apply Qle_refl.
      * intros j y Hlt Hj. rewrite lookup_app_l in Hj by exact Hlt.
        eapply Qle_lt_trans; [|exact E]. eauto.
    + apply py_gt_false in E.
      assert (Hbi : (besti < length pre)%nat)
        by (apply lookup_lt_is_Some; eauto).
      apply IH.
      * now rewrite lookup_app_l.
      * intros j y Hj. apply lookup_app_Some in Hj as [Hj|[_ Hj]]; [eauto|].
        destruct (j - length pre)%nat; [|discriminate].
        now injection Hj as <-.
      * intros j y Hlt Hj. rewrite lookup_app_l in Hj by lia. eauto.
Qed.

(** X3. On a row that is not empty, the prediction [argmax] is the index of
    a largest logit, and of the first one: every logit before it is
    strictly smaller. *)
Theorem argmax_first_maximum (row : list Q) :
  row <> [] ->
  exists m,
    row !! argmax row = Some m /\
    (forall j x, row !! j = Some x -> (x <= m)%Q) /\
    (forall j x, (j < argmax row)%nat -> row !! j = Some x -> (x < m)%Q).
Proof.
  destruct row as [|x row]; [contradiction|]. intros _.
  apply (argmax_from_spec [x] row x 0).
  - reflexivity.
  - intros [|j] y Hj; [|discriminate]. injection Hj as <-. apply Qle_refl.
  - intros j y Hj. lia.
Qed.

Lemma hits_le (preds target : list nat) :
  (hits preds target <= length preds)%nat.
Proof.
  revert target. induction preds as [|p preds IH]; intros [|t target];
    simpl; try lia.
  specialize (IH target). destruct (p =? t)%nat; lia.
Qed.

Lemma hits_same (l : list nat) : hits l l = length l.
Proof.
  induction l as [|p l IH]; [reflexivity|].
  simpl. now rewrite Nat.eqb_refl, IH.
Qed.

(** X4. On a batch that is not empty, [accuracy] lies between 0 and 1, and
    it is 1 when the labels are the predictions. *)
Theorem accuracy_bounds (output : list (list Q)) (target : list nat) :
  output <> [] ->
  (0 <= accuracy output target)%Q /\ (accuracy output target <= 1)%Q /\
  (target = map argmax output -> (accuracy output target == 1)%Q).
Proof.
  intros Hne. unfold accuracy.
  set (preds := map argmax output).
  assert (Hlen : (0 < length preds)%nat).
  { subst preds. rewrite length_map. destruct output; [contradiction|].
    simpl. lia. }
  pose proof (hits_le preds target) as Hh.
  assert (Hpos : (0 < inject_Z (Z.of_nat (length preds)))%Q).
  { rewrite <- (Zlt_Qlt 0). lia. }
  split; [|split].
  - apply Qle_shift_div_l; [exact Hpos|]. rewrite Qmult_0_l.
    rewrite <- (Zle_Qle 0). lia.
  - apply Qle_shift_div_r; [exact Hpos|]. rewrite Qmult_1_l.
    rewrite <- Zle_Qle. lia.
  - intros ->. fold preds. rewrite hits_same.
    apply Qmult_inv_r. intros E. rewrite E in Hpos.
    now apply Qlt_irrefl in Hpos.
Qed.

Lemma argmax_first_maximum_witness :
  exists m, [1; 3; 3; 2]%Q !! argmax [1; 3; 3; 2]%Q = Some m /\ (m == 3)%Q.
Proof.
  destruct (argmax_first_maximum [1; 3; 3; 2]%Q ltac:(discriminate))
    as (m & Hm & _).
  exists m. split; [exact Hm|].
  vm_compute in Hm. injection Hm as <-. reflexivity.
Defined.

Lemma accuracy_bounds_witness :
  (accuracy [[1; 0]; [0; 1]]%Q [0; 0]%nat <= 1)%Q.
Proof.
  exact (proj1 (proj2 (accuracy_bounds [[1; 0]; [0; 1]]%Q [0; 0]%nat
                         ltac:(discriminate)))).
Defined.

(** ** Runs *)

Section Runs.
Context `{FW : Framework}.

(** X5. With [epochs <= 0] the loop over the epochs, [range(1, cfg.epochs +
    1)], is empty: it returns at once with the initial best accuracy 0 and
    leaves the state as it was, so no pass runs, no summary is printed and
    no checkpoint is written. *)
Theorem no_epochs_no_work (cfg : TrainConfig)
    (train_loader val_loader : DataLoader) (s : tstate) :
  epochs cfg <= 0 ->
  run_epochs cfg train_loader val_loader s = (Ok 0%Q, s).
Proof.
  intros He. unfold run_epochs. rewrite seqZ_nil by exact He. reflexivity.
Qed.

Lemma run_bound (cfg : TrainConfig) (train_loader val_loader : DataLoader)
    (es : list Z) (b0 : Q) (s : tstate) (b' : Q) (s' : tstate) :
  for_each (epoch_body cfg train_loader val_loader) es b0 s = (Ok b', s') ->
  exists evs,
    log (tw s') = log (tw s) ++ evs /\
    starts_quiet evs /\
    (b0 <= b')%Q /\
    Forall (fun x => (x.1.2 <= b')%Q) (epoch_view evs) /\
    StronglySorted Qlt (saved_accs (epoch_view evs)) /\
    Forall (fun a => (b0 < a)%Q) (saved_accs (epoch_view evs)).
Proof.
  revert b0 s. induction es as [|e es IH]; intros b0 s H.
  - injection H as <- <-. exists []. rewrite app_nil_r.
    split; [reflexivity|]. split; [exact I|].
    split; [apply Qle_refl|]. repeat split; constructor.
  - cbn [for_each] in H. apply bind_ok_inv in H as (b1 & s1 & Hb & Hrest).
    apply epoch_body_inv in Hb as (evs1 & tl & ta & vl & va & Hin & Hcase).
    apply IH in Hrest as (evs2 & Hl2 & Hq2 & Hle2 & Hall2 & Hsort2 & Hpos2).
    destruct Hcase as [(Egt & -> & Hl) | (Egt & -> & Hl)].
    + apply py_gt_true in Egt.
      exists (evs1 ++ EvPrintEpoch e tl ta vl va
                   :: EvTorchSave (output_dir cfg ++ [checkpoint_name e va])
                   :: evs2).
      split. { rewrite Hl2, Hl, <- !app_assoc. reflexivity. }
      split. { now apply starts_quiet_chunk. }
      split. { apply Qlt_le_weak. eapply Qlt_le_trans; eauto. }
      rewrite epoch_view_inner by exact Hin. cbn [epoch_view].
      change (saved_accs ((e, va, Some (output_dir cfg ++ [checkpoint_name e va]))
                          :: epoch_view evs2))
        with (va :: saved_accs (epoch_view evs2)).
      split. { constructor; [exact Hle2|exact Hall2]. }
      split. { constructor; [exact Hsort2|exact Hpos2]. }
      constructor; [exact Egt|].
      eapply Forall_impl; [exact Hpos2|].
      intros a Ha. simpl in Ha. eapply Qlt_trans; eauto.
    + apply py_gt_false in Egt.
      exists (evs1 ++ EvPrintEpoch e tl ta vl va :: evs2).
      split. { rewrite Hl2, Hl, <- !app_assoc. reflexivity. }
      split. { now apply starts_quiet_chunk. }
      split. { exact Hle2. }
      rewrite epoch_view_inner, epoch_view_quiet by assumption.
      change (saved_accs ((e, va, None) :: epoch_view evs2))
        with (saved_accs (epoch_view evs2)).
      split. { constructor; [|exact Hall2]. simpl. eapply Qle_trans; eauto. }
      split; assumption.
Qed.

(** X6. In a run that completes, the accuracies of the checkpoints written
    are positive and strictly increasing from one checkpoint to the next,
    and the best accuracy the loop ends with bounds the validation accuracy
    of every epoch: the last checkpoint written is that of a best epoch. *)
Theorem checkpoints_improve (cfg : TrainConfig)
    (train_loader val_loader : DataLoader) (s s' : tstate) (best : Q) :
  run_epochs cfg train_loader val_loader s = (Ok best, s') ->
  exists evs,
    log (tw s') = log (tw s) ++ evs /\
    StronglySorted Qlt (saved_accs (epoch_view evs)) /\
    Forall (fun a => (0 < a)%Q) (saved_accs (epoch_view evs)) /\
    Forall (fun x => (x.1.2 <= best)%Q) (epoch_view evs) /\
    best = List.last (saved_accs (epoch_view evs)) 0%Q.
Proof.
  unfold run_epochs. intros H.
  pose proof (run_from _ _ _ _ _ _ _ _ H)
    as (evs' & Hl' & _ & _ & (_ & _ & Hlast) & _).
  apply run_bound in H as (evs & Hl & _ & _ & Hall & Hsort & Hpos).
  assert (evs' = evs) by (rewrite Hl in Hl'; now apply app_inv_head in Hl').
  subst evs'. exists evs. auto.
Qed.

Lemma checkpoint_name_epoch (e1 e2 : Z) (m1 m2 : Q) :
  0 <= e1 -> 0 <= e2 -> 0 <= Qnum m1 -> 0 <= Qnum m2 ->
  checkpoint_name e1 m1 = checkpoint_name e2 m2 -> e1 = e2.
Proof.
  intros H1 H2 M1 M2 E.
  pose proof (decode_checkpoint_name e1 m1 H1 M1) as D1.
  pose proof (decode_checkpoint_name e2 m2 H2 M2) as D2.
  rewrite E, D2 in D1. injection D1 as D _. lia.
Qed.

Lemma saved_files_distinct (out : list string)
    (v : list (Z * Q * option (list string))) :
  NoDup (map (fun x => x.1.1) v) ->
  Forall (fun x => 0 <= x.1.1) v ->
  Forall (fun x => x.2 = None \/
                   x.2 = Some (out ++ [checkpoint_name x.1.1 x.1.2])) v ->
  Forall (fun x => is_Some x.2 -> (0 < x.1.2)%Q) v ->
  NoDup (omap (fun x => x.2) v).
Proof.
  induction v as [|x0 v IH]; intros Hnd Hep Hf Hpos; [constructor|].
  apply NoDup_cons in Hnd as [Hnotin Hnd].
  apply Forall_cons in Hep as [He0 Hep].
  apply Forall_cons in Hf as [Hf0 Hf].
  apply Forall_cons in Hpos as [Hp0 Hpos].
  specialize (IH Hnd Hep Hf Hpos). cbn [omap list_omap].
  destruct (x0.2) as [f0|] eqn:E0; [|exact IH].
  apply NoDup_cons. split; [|exact IH].
  intros Hin. apply list_elem_of_omap in Hin as (x & Hx & Hxf).
  apply Hnotin. apply list_elem_of_fmap. exists x. split; [|exact Hx].
  rewrite Forall_forall in Hep, Hf, Hpos.
  destruct (Hf x Hx) as [Hn|Hs]; [congruence|].
  destruct Hf0 as [Hn|Hs0]; [discriminate|].
  rewrite Hxf in Hs. injection Hs as Hs. injection Hs0 as Hs0.
  rewrite Hs0 in Hs. apply app_inv_head in Hs.
  apply (f_equal (fun l => List.hd EmptyString l)) in Hs. cbn [List.hd] in Hs.
  assert (P0 : (0 < x0.1.2)%Q) by (apply Hp0; eauto).
  assert (P1 : (0 < x.1.2)%Q) by (apply Hpos; [exact Hx|rewrite Hxf; eauto]).
  apply (checkpoint_name_epoch _ _ _ _ He0 (Hep x Hx)) in Hs; auto.
  - unfold Qlt in P0. simpl in P0. lia.
  - unfold Qlt in P1. simpl in P1. lia.
Qed.

(** X7. A run that completes never writes the same checkpoint file twice:
    the files it saves are pairwise distinct, so no checkpoint of the run
    overwrites another. *)
Theorem checkpoints_distinct (cfg : TrainConfig)
    (train_loader val_loader : DataLoader) (s s' : tstate) (best : Q) :
  run_epochs cfg train_loader val_loader s = (Ok best, s') ->
  exists evs,
    log (tw s') = log (tw s) ++ evs /\
    NoDup (filter (fun e => is_save e) evs).
Proof.
  unfold run_epochs. intros H.
  apply run_from in H as (evs & Hl & _ & Hm & (Hf & Hiff & _) & Hs).
  exists evs. split; [exact Hl|]. rewrite Hs.
  apply NoDup_fmap_2; [intros f g [= ->]; reflexivity|].
  apply (saved_files_distinct (output_dir cfg)).
  - rewrite Hm. apply NoDup_seqZ.
  - apply Forall_forall. intros x Hx.
    assert (Hin : x.1.1 ∈ seqZ 1 (epochs cfg)).
    { rewrite <- Hm. apply list_elem_of_fmap. eauto. }
    apply elem_of_seqZ in Hin. lia.
  - exact Hf.
  - apply Forall_forall. intros x Hx Hsome.
    apply list_elem_of_split in Hx as (pre & post & Hv).
    now apply (Hiff pre x post Hv) in Hsome as [Hpos _].
Qed.

End Runs.

Lemma no_epochs_no_work_witness :
  epochs Scenario.cfg_no_epochs <= 0 /\
  run_epochs Scenario.cfg_no_epochs Scenario.train_loader Scenario.val_loader
    Scenario.s0 = (Ok 0%Q, Scenario.s0).
Proof.
  split; [vm_compute; discriminate|].
  apply (no_epochs_no_work Scenario.cfg_no_epochs). vm_compute. discriminate.
Defined.

Lemma checkpoints_improve_witness :
  exists evs,
    log (tw (snd (run_epochs Scenario.cfg_flip
                    (Scenario.loader_of 4 true true Scenario.train_data)
                    (Scenario.loader_of 4 false false Scenario.val_data)
                    Scenario.s0)))
    = log (tw Scenario.s0) ++ evs /\
    StronglySorted Qlt (saved_accs (epoch_view evs)).
Proof.
  destruct (run_epochs Scenario.cfg_flip
              (Scenario.loader_of 4 true true Scenario.train_data)
              (Scenario.loader_of 4 false false Scenario.val_data)
              Scenario.s0) as [r s1] eqn:E.
  assert (Hr : r = Ok (2 # 2)%Q)
    by (apply (f_equal fst) in E; vm_compute in E; now subst r).
  subst r.
  destruct (checkpoints_improve _ _ _ _ _ _ E) as (evs & Hl & Hs & _).
  exists evs. split; [exact Hl|exact Hs].
Defined.

Lemma checkpoints_distinct_witness :
  exists evs,
    log (tw (snd (run_epochs Scenario.cfg_flip
                    (Scenario.loader_of 4 true true Scenario.train_data)
                    (Scenario.loader_of 4 false false Scenario.val_data)
                    Scenario.s0)))
    = log (tw Scenario.s0) ++ evs /\
    NoDup (filter (fun e => is_save e) evs).
Proof.
  destruct (run_epochs Scenario.cfg_flip
              (Scenario.loader_of 4 true true Scenario.train_data)
              (Scenario.loader_of 4 false false Scenario.val_data)
              Scenario.s0) as [r s1] eqn:E.
  assert (Hr : r = Ok (2 # 2)%Q)
    by (apply (f_equal fst) in E; vm_compute in E; now subst r).
  subst r.
  destruct (checkpoints_distinct _ _ _ _ _ _ E) as (evs & Hl & Hs).
  exists evs. split; [exact Hl|exact Hs].
Defined.

(** ** What a save touches *)

Section MkdirMore.
Context {C : Type}.
Implicit Types (tree : gmap (list string) (node C)) (p q : list string).

Lemma mkdir_from_new tree tree' done todo q n :
  mkdir_from tree done todo = Ok tree' ->
  tree !! q = None -> tree' !! q = Some n ->
  n = Dir /\ exists r, r `prefix_of` todo /\ q = done ++ r.
Proof.
  revert tree done. induction todo as [|a rest IH]; intros tree done; simpl.
  - intros [= <-] Hq Hq'. congruence.
  - destruct (tree !! (done ++ [a])) as [[|c]|] eqn:E; intros H Hq Hq'.
    + destruct (IH _ _ H Hq Hq') as (-> & r & Hr & ->).
      split; [reflexivity|]. exists (a :: r).
      split; [now apply prefix_cons|]. now rewrite <- app_assoc.
    + discriminate.
    + destruct (decide (q = done ++ [a])) as [->|Hne].
      * assert (Hd : tree' !! (done ++ [a]) = Some Dir).
        { eapply mkdir_from_keeps; [exact H|]. apply lookup_insert_eq. }
        rewrite Hd in Hq'. injection Hq' as <-. split; [reflexivity|].
        exists [a]. split; [apply prefix_cons, prefix_nil|easy].
      * assert (Hq1 : <[done ++ [a] := Dir]> tree !! q = None)
          by now rewrite lookup_insert_ne.
        destruct (IH _ _ H Hq1 Hq') as (-> & r & Hr & ->).
        split; [reflexivity|]. exists (a :: r).
        split; [now apply prefix_cons|]. now rewrite <- app_assoc.
Qed.

Lemma mkdir_from_through tree done p1 p2 :
  (forall q, q <> [] -> q `prefix_of` p1 -> tree !! (done ++ q) = Some Dir) ->
  mkdir_from tree done (p1 ++ p2) = mkdir_from tree (done ++ p1) p2.
Proof.
  revert done. induction p1 as [|a p1 IH]; intros done H.
  - now rewrite app_nil_r.
  - cbn [app mkdir_from].
    rewrite (H [a]); [|easy|apply prefix_cons, prefix_nil].
    rewrite IH.
    + now rewrite <- app_assoc.
    + intros q Hq Hp. rewrite <- app_assoc. apply H; [easy|].
      now apply prefix_cons.
Qed.

End MkdirMore.

Section SaveFrame.
Context `{FW : Framework}.

(** X8. A successful [save_checkpoint] touches nothing but the file system,
    and there only the checkpoint file and the directories it had to
    create on the way to the output directory: the model, the optimizer
    and the scale are as before, every entry that existed besides the
    checkpoint file is kept as it was, and no entry appears anywhere off
    the path to the output directory. *)
Theorem save_checkpoint_frame (epoch : Z) (cfg : TrainConfig) (metric : Q)
    (s s' : tstate) :
  save_checkpoint epoch cfg metric s = (Ok tt, s') ->
  let file := output_dir cfg ++ [checkpoint_name epoch metric] in
  model s' = model s /\ optimizer s' = optimizer s /\ scaler s' = scaler s /\
  (forall q n, q <> file -> fs (tw s) !! q = Some n ->
               fs (tw s') !! q = Some n) /\
  (forall q, q <> file -> ~ q `prefix_of` output_dir cfg ->
             fs (tw s) !! q = None -> fs (tw s') !! q = None).
Proof.
  intros H file. rewrite save_checkpoint_eq in H. cbv zeta in H.
  destruct (mkdir_parents_exist_ok _ _) as [tree1|e] eqn:Em; [|discriminate].
  destruct (write_file _ _ _) as [tree2|e] eqn:Ew; [|discriminate].
  injection H as <-. apply write_file_ok in Ew. subst tree2.
  destruct s as [[tree l g r] m o sc]. cbn.
  repeat split.
  - intros q n Hq Hn. rewrite lookup_insert_ne by (subst file; congruence).
    eapply mkdir_from_keeps; eauto.
  - intros q Hq Hp Hn. rewrite lookup_insert_ne by (subst file; congruence).
    destruct (tree1 !! q) as [n|] eqn:E1; [|reflexivity]. exfalso.
    destruct (mkdir_from_new _ _ _ _ _ _ Em Hn E1) as (_ & r0 & Hr & ->).
    now apply Hp.
Qed.

(** X9. When the output directory's path is taken by a regular file (its
    parent being in place), [save_checkpoint] raises [FileExistsError] and
    changes nothing. *)
Theorem save_checkpoint_blocked (epoch : Z) (cfg : TrainConfig) (metric : Q)
    (s : tstate) (parent : list string) (name : string) c :
  output_dir cfg = parent ++ [name] ->
  dir_exists (fs (tw s)) parent ->
  fs (tw s) !! (parent ++ [name]) = Some (File c) ->
  save_checkpoint epoch cfg metric s
  = (Raise (FileExistsError (str_of_path (output_dir cfg))), s).
Proof.
  intros Ho Hd Hf. rewrite save_checkpoint_eq. cbv zeta.
  unfold mkdir_parents_exist_ok. rewrite Ho.
  rewrite mkdir_from_through by (intros q Hq Hp; now apply Hd).
  cbn [app mkdir_from]. rewrite Hf. reflexivity.
Qed.

End SaveFrame.

Lemma save_checkpoint_frame_witness :
  model (snd (save_checkpoint 1 Scenario.cfg1 (1 # 2) Scenario.s0))
  = model Scenario.s0.
Proof.
  destruct (save_checkpoint 1 Scenario.cfg1 (1 # 2) Scenario.s0)
    as [r s1] eqn:E.
  assert (Hr : r = Ok tt)
    by (apply (f_equal fst) in E; vm_compute in E; now subst r).
  subst r.
  exact (proj1 (save_checkpoint_frame 1 Scenario.cfg1 (1 # 2) Scenario.s0 s1 E)).
Defined.

Lemma save_checkpoint_blocked_witness :
  save_checkpoint 1 Scenario.cfg1 (1 # 2) Scenario.s_blocked
  = (Raise (FileExistsError "artifacts/checkpoints"), Scenario.s_blocked).
Proof.
  apply (save_checkpoint_blocked 1 Scenario.cfg1 (1 # 2) Scenario.s_blocked
           ["artifacts"]%string "checkpoints" Blob).
  - reflexivity.
  - intros q Hq [k Hk]. destruct q as [|a [|b q]]; [contradiction| |].
    + injection Hk as <- _. vm_compute. reflexivity.
    + destruct q; discriminate.
  - vm_compute. reflexivity.
Defined.

(** ** What the evaluation pass depends on *)

Section EvaluateMore.
Context `{FW : Framework}.

Lemma evaluate_result (loader : DataLoader) (s : tstate) :
  0 < dl_batch_size loader -> loader_len loader <> 0 ->
  fst (evaluate loader s)
  = Ok (average (map (batch_loss (state_dict (model s)))
                   (loader_batches loader (rng (tw s)))),
        average (map (batch_accuracy (state_dict (model s)))
                   (loader_batches loader (rng (tw s))))).
Proof.
  intros Hb Hz.
  pose proof (loader_batches_length loader (rng (tw s)) Hb) as Hlen.
  destruct s as [[tree l g r] [fc p tr gr] o sc].
  unfold evaluate. run_outer. cbn [rng tw] in Hlen.
  rewrite eval_loop_eq by reflexivity. run.
  unfold py_truediv, average. rewrite !length_map, Hlen.
  destruct (Z.eqb_spec (loader_len loader) 0) as [E|_]; [contradiction|].
  reflexivity.
Qed.

(** X10. What [evaluate] returns, or raises, is a function of the
    parameters of the model and of the batches alone: two states with the
    same parameters give the same outcome over a loader that does not
    shuffle (or under the same generator state), whatever the mode of the
    model, its gradients, the optimizer, the scale or the log. *)
Theorem evaluate_depends_on_parameters (loader : DataLoader) (s1 s2 : tstate) :
  0 < dl_batch_size loader ->
  state_dict (model s1) = state_dict (model s2) ->
  dl_shuffle loader = false \/ rng (tw s1) = rng (tw s2) ->
  fst (evaluate loader s1) = fst (evaluate loader s2).
Proof.
  intros Hb Hp Hr.
  destruct (Z.eq_dec (loader_len loader) 0) as [Hz|Hz].
  - now rewrite !evaluate_no_batches.
  - rewrite !evaluate_result by assumption. rewrite Hp.
    assert (Hbs : loader_batches loader (rng (tw s1))
                  = loader_batches loader (rng (tw s2))).
    { destruct Hr as [Hs|Hr]; [|now rewrite Hr].
      unfold loader_batches. now rewrite Hs. }
    now rewrite Hbs.
Qed.

End EvaluateMore.

(** ** The batches of the two loaders *)

Lemma concat_chunks_fuel {A} (fuel k : nat) (l : list A) :
  (0 < k)%nat -> (length l <= fuel)%nat ->
  concat (chunks_fuel fuel k l) = l.
Proof.
  intros Hk. revert l. induction fuel as [|fuel IH]; intros l Hl.
  - destruct l; [reflexivity|simpl in Hl; lia].
  - destruct l as [|x l']; [reflexivity|].
    cbn [chunks_fuel concat]. rewrite IH.
    + apply take_drop.
    + rewrite length_drop. simpl in *. lia.
Qed.

Lemma chunks_fuel_nonempty {A} (fuel k : nat) (l : list A) :
  (0 < k)%nat -> Forall (fun c => c <> []) (chunks_fuel fuel k l).
Proof.
  intros Hk. revert l. induction fuel as [|fuel IH]; intros l;
    [constructor|].
  destruct l as [|x l']; [constructor|].
  cbn [chunks_fuel]. constructor; [|apply IH].
  destruct k; [lia|discriminate].
Qed.

Section Batching.
Context `{FW : Framework}.

Lemma data_loader_inv (ds : ImageFolder) (shuf drop : bool)
    (cfg : TrainConfig) (w w' : world) (l : DataLoader) :
  data_loader ds shuf drop cfg w = (Ok l, w') ->
  0 < batch_size cfg /\
  l = {| dataset := samples ds; dl_batch_size := batch_size cfg;
         dl_shuffle := shuf; dl_drop_last := drop |}.
Proof.
  unfold data_loader.
  destruct (num_workers cfg <? 0); [discriminate|].
  destruct (batch_size cfg <=? 0) eqn:E; [discriminate|].
  intros [= <- _]. split; [lia|reflexivity].
Qed.

(** X11. The two loaders as [build_dataloaders] constructs them, the
    training one with [shuffle=True, drop_last=True] and the validation one
    with [shuffle=False, drop_last=False]: a validation pass sees every
    validation sample exactly once, in the order of the dataset, in batches
    none of which is empty; every training batch holds exactly [batch_size]
    samples, the incomplete last one being dropped. *)
Theorem loaders_batching (train_dataset val_dataset : ImageFolder)
    (cfg : TrainConfig) (w w1 w2 : world) (tl vl : DataLoader) (r : Z) :
  data_loader train_dataset true true cfg w = (Ok tl, w1) ->
  data_loader val_dataset false false cfg w1 = (Ok vl, w2) ->
  concat (map fst (loader_batches vl r)) = map fst (samples val_dataset) /\
  concat (map snd (loader_batches vl r)) = map snd (samples val_dataset) /\
  Forall (fun b => b.1 <> []) (loader_batches vl r) /\
  Forall (fun b => Z.of_nat (length b.1) = batch_size cfg /\
                   length b.2 = length b.1) (loader_batches tl r).
Proof.
  intros Ht Hv.
  apply data_loader_inv in Ht as [Hb ->].
  apply data_loader_inv in Hv as [_ ->].
  assert (Hk : (0 < Z.to_nat (batch_size cfg))%nat) by lia.
  unfold loader_batches, batches_of, chunks. cbn [dataset dl_batch_size
    dl_shuffle dl_drop_last]. rewrite !map_map. cbn [fst snd].
  repeat split.
  - rewrite <- (concat_map fst), concat_chunks_fuel by lia. reflexivity.
  - rewrite <- (concat_map snd), concat_chunks_fuel by lia. reflexivity.
  - apply Forall_map. eapply Forall_impl;
      [apply chunks_fuel_nonempty; exact Hk|].
    intros c Hc. simpl. now destruct c.
  - apply Forall_map. apply Forall_forall. intros c Hc.
    apply list_elem_of_filter in Hc as [Hc _]. simpl.
    rewrite !length_map, Hc. split; [lia|reflexivity].
Qed.

End Batching.

Lemma loaders_batching_witness :
  let train_dataset :=
    {| classes := ["a"; "b"]%string; samples := Scenario.train_data;
       transform := {| augment := true; normalize_mean := MetaOther;
                       normalize_std := MetaOther |} |} in
  let val_dataset :=
    {| classes := ["a"; "b"]%string; samples := Scenario.val_data;
       transform := {| augment := false; normalize_mean := MetaOther;
                       normalize_std := MetaOther |} |} in
  data_loader train_dataset true true Scenario.cfg_small Scenario.w0
  = (Ok (Scenario.loader_of 2 true true Scenario.train_data), Scenario.w0) /\
  data_loader val_dataset false false Scenario.cfg_small Scenario.w0
  = (Ok (Scenario.loader_of 2 false false Scenario.val_data), Scenario.w0) /\
  concat (map fst (loader_batches
                     (Scenario.loader_of 2 false false Scenario.val_data) 0))
  = map fst Scenario.val_data /\
  Forall (fun b => Z.of_nat (length b.1) = 2 /\ length b.2 = length b.1)
    (loader_batches (Scenario.loader_of 2 true true Scenario.train_data) 0).
Proof.
  intros train_dataset val_dataset.
  assert (Ht : data_loader train_dataset true true Scenario.cfg_small
                 Scenario.w0
               = (Ok (Scenario.loader_of 2 true true Scenario.train_data),
                  Scenario.w0)) by reflexivity.
  assert (Hv : data_loader val_dataset false false Scenario.cfg_small
                 Scenario.w0
               = (Ok (Scenario.loader_of 2 false false Scenario.val_data),
                  Scenario.w0)) by reflexivity.
  split; [exact Ht|]. split; [exact Hv|].
  destruct (loaders_batching _ _ _ _ _ _ _ _ 0 Ht Hv) as (H1 & _ & _ & H4).
  split; [exact H1|exact H4].
Defined.

Lemma evaluate_depends_on_parameters_witness :
  fst (evaluate Scenario.val_loader (eval_mode Scenario.s0))
  = fst (evaluate Scenario.val_loader Scenario.s0).
Proof.
  apply evaluate_depends_on_parameters.
  - reflexivity.
  - reflexivity.
  - left. reflexivity.
Defined.

(** ** The command line *)

Section CommandLineRun.
Context `{FW : Framework}.


End CommandLineRun.

(** * The checkpoint policy *)

(** ** Every run of the loop over the epochs, whatever its outcome *)

Ltac run_in H :=
  cbv beta iota zeta delta
    [emit lift_world emit_w with_world put_fs saved_state scheduler_step
     mbind M_bind mret M_ret raise gets modify lift_result
     tw model optimizer scaler fs log grad_enabled rng fst snd] in H.

Section EveryRun.
Context `{FW : Framework}.

Lemma mkdir_frame
    (tree tree1 : gmap (list string) (node (content image params opt_state)))
    (p q : list string) :
  mkdir_parents_exist_ok tree p = Ok tree1 ->
  ~ q `prefix_of` p -> tree1 !! q = tree !! q.
Proof.
  intros H Hq. destruct (tree !! q) as [n|] eqn:E.
  - eapply mkdir_from_keeps; eauto.
  - destruct (tree1 !! q) as [n|] eqn:E1; [|reflexivity]. exfalso.
    destruct (mkdir_from_new _ _ _ _ _ _ H E E1) as (_ & r & Hr & ->).
    now apply Hq.
Qed.

(** How one pass through the body of the loop can end. *)
Lemma epoch_body_cases (cfg : TrainConfig) (train_loader val_loader : DataLoader)
    (best : Q) (epoch : Z) (s : tstate) r (s' : tstate) :
  epoch_body cfg train_loader val_loader best epoch s = (r, s') ->
  exists evs, Forall inner evs /\
    ((is_ok r = false /\ log (tw s') = log (tw s) ++ evs /\
      fs (tw s') = fs (tw s)) \/
     exists tl ta vl va,
       let summary := EvPrintEpoch epoch tl ta vl va in
       let file := output_dir cfg ++ [checkpoint_name epoch va] in
       (py_gt va best = false /\ r = Ok best /\
        log (tw s') = log (tw s) ++ evs ++ [summary] /\
        fs (tw s') = fs (tw s)) \/
       (py_gt va best = true /\ r = Ok va /\
        log (tw s') = log (tw s) ++ evs ++ [summary; EvTorchSave file] /\
        exists tree1 m o,
          mkdir_parents_exist_ok (fs (tw s)) (output_dir cfg) = Ok tree1 /\
          fs (tw s')
          = <[file := File (Pickle (checkpoint_dict m o epoch va))]> tree1) \/
       (py_gt va best = true /\ is_ok r = false /\
        log (tw s') = log (tw s) ++ evs ++ [summary] /\
        (fs (tw s') = fs (tw s) \/
         mkdir_parents_exist_ok (fs (tw s)) (output_dir cfg)
         = Ok (fs (tw s'))))).
Proof.
  unfold epoch_body. intros H.
  pose proof (Quiet_train_one_epoch train_loader epoch cfg s) as Q1.
  destruct (train_one_epoch train_loader epoch cfg s) as [[[tl ta]|e] s1]
    eqn:E1; simpl in Q1.
  2:{ rewrite (bind_raise _ _ _ _ _ E1) in H. injection H as <- <-.
      destruct Q1 as (Hf & evs & Hl & Hin). exists evs. split; [exact Hin|].
      left. auto. }
  rewrite (bind_ok _ _ _ _ _ E1) in H.
  pose proof (Quiet_evaluate val_loader s1) as Q2.
  destruct (evaluate val_loader s1) as [[[vl va]|e] s2] eqn:E2; simpl in Q2.
  2:{ rewrite (bind_raise _ _ _ _ _ E2) in H. injection H as <- <-.
      destruct (quiet_step_trans _ _ _ Q1 Q2) as (Hf & evs & Hl & Hin).
      exists evs. split; [exact Hin|]. left. auto. }
  rewrite (bind_ok _ _ _ _ _ E2) in H.
  destruct (quiet_step_trans _ _ _ Q1 Q2) as (Hf & evs & Hl & Hin).
  exists (evs ++ [EvSchedulerStep]).
  split. { apply Forall_app. split; [exact Hin|]. repeat constructor. }
  right. exists tl, ta, vl, va. cbv zeta.
  destruct s2 as [[tree l g rr] m o sc]. cbn [tw fs log] in Hf, Hl.
  run_in H. revert H.
  destruct (py_gt va best) eqn:Egt.
  - match goal with
    | |- context [save_checkpoint epoch cfg va ?s4] =>
        pose proof (save_checkpoint_eq epoch cfg va s4) as Es;
        cbv zeta in Es; cbn [tw fs model optimizer] in Es
    end.
    rewrite <- Hf. cbn [tw fs].
    destruct (mkdir_parents_exist_ok tree (output_dir cfg))
      as [tree1|e] eqn:Em.
    + destruct (write_file tree1 _ _) as [tree2|e] eqn:Ew.
      * rewrite Es. intros [= <- <-]. right. left.
        apply write_file_ok in Ew. subst tree2.
        split; [reflexivity|]. split; [reflexivity|]. cbn.
        split. { rewrite Hl, <- !app_assoc. reflexivity. }
        eauto.
      * rewrite Es. intros [= <- <-]. right. right.
        split; [reflexivity|]. split; [reflexivity|]. cbn.
        split. { rewrite Hl, app_nil_r, <- !app_assoc. reflexivity. }
        right. reflexivity.
    + rewrite Es. intros [= <- <-]. right. right.
      split; [reflexivity|]. split; [reflexivity|]. cbn.
      split. { rewrite Hl, <- !app_assoc. reflexivity. }
      left. reflexivity.
  - intros [= <- <-]. left.
    split; [reflexivity|]. split; [reflexivity|]. cbn.
    split. { rewrite Hl, <- !app_assoc. reflexivity. }
    exact Hf.
Qed.

Lemma starts_quiet_inner (evs : list event) :
  Forall inner evs -> starts_quiet evs.
Proof.
  intros H. destruct H as [|x evs [_ Hx] _]; [exact I|].
  destruct x; try exact I. discriminate.
Qed.

Lemma Qnum_nonneg (a : Q) : (0 <= a)%Q -> 0 <= Qnum a.
Proof. unfold Qle. simpl. lia. Qed.

Lemma checkpoint_dict_epoch (m : Model) (o : opt_state) (e : Z) (a : Q) :
  checkpoint_dict m o e a !! "epoch"%string = Some (VInt e) /\
  checkpoint_dict m o e a !! "val_top1"%string = Some (VFloat a).
Proof. unfold checkpoint_dict. split; now simplify_map_eq. Qed.

Lemma file_not_above (out : list string) (name : string) :
  ~ (out ++ [name]) `prefix_of` out.
Proof.
  intros H. apply prefix_length in H. rewrite length_app in H. simpl in H. lia.
Qed.

(** Every run of the loop over the epochs [es], whatever its outcome. *)
Lemma run_any (cfg : TrainConfig) (train_loader val_loader : DataLoader)
    (es : list Z) (b0 : Q) (s : tstate) r (s' : tstate) :
  NoDup es -> Forall (fun e => 0 <= e) es -> (0 <= b0)%Q ->
  for_each (epoch_body cfg train_loader val_loader) es b0 s = (r, s') ->
  exists evs,
    log (tw s') = log (tw s) ++ evs /\
    starts_quiet evs /\
    map (fun x => x.1.1) (epoch_view evs) `prefix_of` es /\
    (is_ok r = true -> map (fun x => x.1.1) (epoch_view evs) = es) /\
    (forall pre x post,
       epoch_view evs = pre ++ x :: post ->
       (is_Some x.2 -> improves b0 pre x) /\
       (improves b0 pre x ->
        is_Some x.2 \/ (post = [] /\ is_ok r = false))) /\
    Forall (checkpoint_in (fs (tw s')) (output_dir cfg)) (epoch_view evs) /\
    filter (fun e => is_save e) evs
    = map EvTorchSave (omap (fun x => x.2) (epoch_view evs)) /\
    untouched_elsewhere (fs (tw s)) (fs (tw s')) (output_dir cfg)
      (omap (fun x => x.2) (epoch_view evs)) /\
    (forall b, r = Ok b -> b = List.last (saved_accs (epoch_view evs)) b0) /\
    (Forall (fun x => (x.1.2 <= b0)%Q) (epoch_view evs) ->
     fs (tw s') = fs (tw s)).
Proof.
  revert b0 s. induction es as [|e es IH]; intros b0 s Hnd Hpos Hb0 H.
  - injection H as <- <-. exists []. rewrite app_nil_r.
    split; [reflexivity|]. split; [exact I|]. split; [reflexivity|].
    split; [reflexivity|]. split.
    { intros pre x post Hv. now destruct pre. }
    split; [constructor|]. split; [reflexivity|]. split.
    { intros q _ _. reflexivity. }
    split; [now intros b [= <-]|reflexivity].
  - cbn [for_each] in H.
    apply NoDup_cons in Hnd as [Hnotin Hnd].
    apply Forall_cons in Hpos as [He Hpos].
    destruct (epoch_body cfg train_loader val_loader b0 e s) as [r1 s1] eqn:E1.
    destruct (epoch_body_cases _ _ _ _ _ _ _ _ E1)
      as (evs1 & Hin & [(Hr1 & Hl1 & Hf1)
                       | (tl & ta & vl & va & Hcase)]).
    + (* the training or the evaluation pass raised *)
      destruct r1 as [b1|err]; [discriminate|].
      rewrite (bind_raise _ _ _ _ _ E1) in H. injection H as <- <-.
      exists evs1.
      assert (Ev : epoch_view evs1 = []).
      { rewrite <- (app_nil_r evs1). now rewrite epoch_view_inner. }
      rewrite Ev.
      split; [exact Hl1|]. split; [now apply starts_quiet_inner|].
      split; [apply prefix_nil|]. split; [discriminate|]. split.
      { intros pre x post Hv. now destruct pre. }
      split; [constructor|]. split; [now apply filter_save_inner|]. split.
      { intros q _ _. now rewrite Hf1. }
      split; [discriminate|]. intros _. exact Hf1.
    + cbv zeta in Hcase.
      destruct Hcase as [(Egt & -> & Hl1 & Hf1)
                        | [(Egt & -> & Hl1 & tree1 & m & o & Hmk & Hf1)
                          | (Egt & Hr1 & Hl1 & Hf1)]].
      * (* no improvement *)
        rewrite (bind_ok _ _ _ _ _ E1) in H.
        destruct (IH _ _ Hnd Hpos Hb0 H)
          as (evs2 & Hl2 & Hq2 & Hpre2 & Hall2 & Hpol2 & Hck2 & Hs2 & Hun2
              & Hlast2 & Hsame2).
        exists (evs1 ++ EvPrintEpoch e tl ta vl va :: evs2).
        assert (Ev : epoch_view (evs1 ++ EvPrintEpoch e tl ta vl va :: evs2)
                     = (e, va, None) :: epoch_view evs2)
          by now rewrite epoch_view_inner, epoch_view_quiet.
        rewrite Ev. apply py_gt_false in Egt.
        split. { rewrite Hl2, Hl1, <- !app_assoc. reflexivity. }
        split. { now apply starts_quiet_chunk. }
        split. { simpl. now apply prefix_cons. }
        split. { intros Hok. simpl. now rewrite Hall2. }
        split.
        { intros pre x post Hv. destruct pre as [|x0 pre].
          - injection Hv as <- <-. simpl. split.
            + intros [? ?]. discriminate.
            + intros [H1 _]. exfalso. eapply Qlt_not_le; eauto.
          - injection Hv as <- Hv. destruct (Hpol2 _ _ _ Hv) as [Hp1 Hp2].
            unfold improves in *. split.
            + intros Hi. destruct (Hp1 Hi) as [H1 H2]. split; [exact H1|].
              constructor; [|exact H2]. simpl. eapply Qle_lt_trans; eauto.
            + intros [H1 H2]. apply Forall_cons in H2 as [_ H2]. auto. }
        split. { constructor; [exact I|exact Hck2]. }
        split.
        { rewrite filter_app, (filter_save_inner _ Hin). cbn [app].
          rewrite filter_cons_False by (simpl; tauto). now rewrite Hs2. }
        split.
        { intros q Hq Hnq. rewrite <- Hf1. now apply Hun2. }
        split; [exact Hlast2|].
        intros Hlow. apply Forall_cons in Hlow as [_ Hlow].
        rewrite <- Hf1. now apply Hsame2.
      * (* improvement, checkpoint written *)
        rewrite (bind_ok _ _ _ _ _ E1) in H.
        apply py_gt_true in Egt.
        assert (Hva : (0 <= va)%Q).
        { apply Qlt_le_weak. eapply Qle_lt_trans; eauto. }
        destruct (IH _ _ Hnd Hpos Hva H)
          as (evs2 & Hl2 & Hq2 & Hpre2 & Hall2 & Hpol2 & Hck2 & Hs2 & Hun2
              & Hlast2 & Hsame2).
        set (f := output_dir cfg ++ [checkpoint_name e va]) in *.
        exists (evs1 ++ EvPrintEpoch e tl ta vl va :: EvTorchSave f :: evs2).
        assert (Ev : epoch_view (evs1 ++ EvPrintEpoch e tl ta vl va
                                   :: EvTorchSave f :: evs2)
                     = (e, va, Some f) :: epoch_view evs2)
          by now rewrite epoch_view_inner.
        rewrite Ev.
        assert (Hfresh : f ∉ omap (fun x : Z * Q * option (list string) => x.2)
                               (epoch_view evs2)).
        { intros Hf. apply list_elem_of_omap in Hf as (x & Hx & Hx2).
          pose proof Hx as Hsplit.
          apply list_elem_of_split in Hsplit as (pre & post & Hv).
          destruct (Hpol2 _ _ _ Hv) as [Hp1 _].
          destruct Hp1 as [Hlt _]; [rewrite Hx2; eauto|].
          rewrite Forall_forall in Hck2. specialize (Hck2 _ Hx).
          unfold checkpoint_in in Hck2. rewrite Hx2 in Hck2.
          destruct Hck2 as [Hname _].
          assert (Hxe : x.1.1 ∈ es).
          { eapply elem_of_prefix; [|exact Hpre2].
            apply list_elem_of_fmap. now exists x. }
          apply app_inj_tail in Hname as [_ Hname].
          apply checkpoint_name_epoch in Hname.
          - apply Hnotin. now rewrite Hname.
          - exact He.
          - rewrite Forall_forall in Hpos. apply Hpos. exact Hxe.
          - now apply Qnum_nonneg.
          - apply Qnum_nonneg, Qlt_le_weak. eapply Qle_lt_trans; eauto. }
        split. { rewrite Hl2, Hl1, <- !app_assoc. reflexivity. }
        split. { now apply starts_quiet_chunk. }
        split. { simpl. now apply prefix_cons. }
        split. { intros Hok. simpl. now rewrite Hall2. }
        split.
        { intros pre x post Hv. destruct pre as [|x0 pre].
          - injection Hv as <- <-. simpl. split.
            + intros _. split; [exact Egt|constructor].
            + intros _. left. eauto.
          - injection Hv as <- Hv. destruct (Hpol2 _ _ _ Hv) as [Hp1 Hp2].
            unfold improves in *. split.
            + intros Hi. destruct (Hp1 Hi) as [H1 H2]. split.
              * eapply Qlt_trans; eauto.
              * constructor; [exact H1|exact H2].
            + intros [H1 H2]. apply Forall_cons in H2 as [H2 H3]. auto. }
        split.
        { constructor; [|exact Hck2]. unfold checkpoint_in. simpl.
          split; [reflexivity|].
          exists (checkpoint_dict m o e va).
          split; [|apply checkpoint_dict_epoch].
          rewrite (Hun2 f); [|apply file_not_above|exact Hfresh].
          rewrite Hf1. apply lookup_insert_eq. }
        split.
        { rewrite filter_app, (filter_save_inner _ Hin). cbn [app].
          rewrite filter_cons_False by (simpl; tauto).
          rewrite filter_cons_True by exact I. now rewrite Hs2. }
        split.
        { intros q Hq Hnq. cbn [omap list_omap] in Hnq. simpl in Hnq.
          apply not_elem_of_cons in Hnq as [Hqf Hnq].
          rewrite (Hun2 q Hq Hnq), Hf1, lookup_insert_ne by congruence.
          now apply (mkdir_frame _ _ _ _ Hmk). }
        split.
        { intros b Hb.
          change (saved_accs ((e, va, Some f) :: epoch_view evs2))
            with (va :: saved_accs (epoch_view evs2)).
          rewrite last_cons_default. now apply Hlast2. }
        intros Hlow. apply Forall_cons in Hlow as [Hlow _]. exfalso.
        eapply Qlt_not_le; eauto.
      * (* improvement, but the checkpoint could not be written *)
        destruct r1 as [b1|err]; [discriminate|].
        rewrite (bind_raise _ _ _ _ _ E1) in H. injection H as <- <-.
        exists (evs1 ++ [EvPrintEpoch e tl ta vl va]).
        assert (Ev : epoch_view (evs1 ++ [EvPrintEpoch e tl ta vl va])
                     = [(e, va, None)])
          by now rewrite epoch_view_inner.
        rewrite Ev.
        split; [exact Hl1|]. split; [now apply starts_quiet_chunk|].
        split. { simpl. apply prefix_cons, prefix_nil. }
        split; [discriminate|]. split.
        { intros pre x post Hv. destruct pre as [|x0 pre].
          - injection Hv as <- <-. split.
            + intros [? ?]. discriminate.
            + intros _. right. split; reflexivity.
          - injection Hv as _ Hv. now destruct pre. }
        split. { constructor; [exact I|constructor]. }
        split.
        { rewrite filter_app, (filter_save_inner _ Hin). reflexivity. }
        split.
        { intros q Hq _. destruct Hf1 as [-> | Hmk]; [reflexivity|].
          now apply (mkdir_frame _ _ _ _ Hmk). }
        split; [discriminate|].
        intros Hlow. apply Forall_cons in Hlow as [Hlow _]. exfalso.
        apply py_gt_true in Egt. eapply Qlt_not_le; eauto.
Qed.

Lemma epochs_range (n : Z) :
  NoDup (seqZ 1 n) /\ Forall (fun e => 0 <= e) (seqZ 1 n).
Proof.
  split; [apply NoDup_seqZ|]. apply Forall_forall. intros e He.
  apply elem_of_seqZ in He. lia.
Qed.

(** C1 (amended). In every run of the loop over the epochs, however it ends,
    the epochs that got to print their summary are [1], [2], ... in order
    (all of them when the run completes), and for each of them: a checkpoint
    is written only if its validation accuracy strictly exceeds 0 and the
    accuracy of every epoch before it, and is written whenever it does,
    unless writing it raised, which ended the run at that epoch.  Every
    checkpoint recorded is a file of the final tree, under the name of its
    epoch and accuracy and holding them; [torch.save] is called for these
    files and no other; nothing else changes off the path to the output
    directory, and nothing at all when no epoch improves.  The best accuracy
    a completed run returns is that of its last checkpoint, or 0. *)
Theorem checkpoint_iff_improvement (cfg : TrainConfig)
    (train_loader val_loader : DataLoader) (s : tstate) r (s' : tstate) :
  run_epochs cfg train_loader val_loader s = (r, s') ->
  exists evs,
    log (tw s') = log (tw s) ++ evs /\
    map (fun x => x.1.1) (epoch_view evs) `prefix_of` seqZ 1 (epochs cfg) /\
    (is_ok r = true ->
     map (fun x => x.1.1) (epoch_view evs) = seqZ 1 (epochs cfg)) /\
    (forall pre x post,
       epoch_view evs = pre ++ x :: post ->
       (is_Some x.2 -> improves 0 pre x) /\
       (improves 0 pre x ->
        is_Some x.2 \/ (post = [] /\ is_ok r = false))) /\
    Forall (checkpoint_in (fs (tw s')) (output_dir cfg)) (epoch_view evs) /\
    filter (fun e => is_save e) evs
    = map EvTorchSave (omap (fun x => x.2) (epoch_view evs)) /\
    untouched_elsewhere (fs (tw s)) (fs (tw s')) (output_dir cfg)
      (omap (fun x => x.2) (epoch_view evs)) /\
    (Forall (fun x => (x.1.2 <= 0)%Q) (epoch_view evs) ->
     fs (tw s') = fs (tw s)) /\
    (forall b, r = Ok b -> b = List.last (saved_accs (epoch_view evs)) 0%Q).
Proof.
  unfold run_epochs. intros H.
  destruct (epochs_range (epochs cfg)) as [Hnd Hpos].
  destruct (run_any _ _ _ _ _ _ _ _ Hnd Hpos (Qle_refl 0) H)
    as (evs & Hl & _ & Hpre & Hall & Hpol & Hck & Hs & Hun & Hlast & Hsame).
  exists evs. auto 10.
Qed.

(** C2 (amended). In a run that completes and whose validation accuracies
    never go up from one epoch to the next, the first of them being
    positive, exactly one checkpoint is produced, that of the first epoch:
    the one call of [torch.save] is for the file named after epoch 1 and its
    accuracy, that file is in the final tree and holds them, and nothing
    else changes off the path to the output directory. *)
Theorem first_epoch_checkpoint_only (cfg : TrainConfig)
    (train_loader val_loader : DataLoader) (s s' : tstate) (best : Q)
    (evs : list event) (a1 : Q) :
  run_epochs cfg train_loader val_loader s = (Ok best, s') ->
  log (tw s') = log (tw s) ++ evs ->
  non_increasing (map (fun x => x.1.2) (epoch_view evs)) ->
  head (map (fun x => x.1.2) (epoch_view evs)) = Some a1 ->
  (0 < a1)%Q ->
  let f1 := output_dir cfg ++ [checkpoint_name 1 a1] in
  head (epoch_view evs) = Some (1, a1, Some f1) /\
  omap (fun x => x.2) (epoch_view evs) = [f1] /\
  filter (fun e => is_save e) evs = [EvTorchSave f1] /\
  (exists d, fs (tw s') !! f1 = Some (File (Pickle d)) /\
             d !! "epoch"%string = Some (VInt 1) /\
             d !! "val_top1"%string = Some (VFloat a1)) /\
  untouched_elsewhere (fs (tw s)) (fs (tw s')) (output_dir cfg) [f1] /\
  best = a1.
Proof.
  intros H Hlog Hmono Hhd Hpos f1. unfold run_epochs in H.
  destruct (epochs_range (epochs cfg)) as [Hnd Hrange].
  destruct (run_any _ _ _ _ _ _ _ _ Hnd Hrange (Qle_refl 0) H)
    as (evs' & Hl & _ & _ & Hall & Hpol & Hck & Hs & Hun & Hlast & _).
  rewrite Hlog in Hl. apply app_inv_head in Hl. subst evs'.
  specialize (Hall eq_refl).
  destruct (epoch_view evs) as [|x0 rest] eqn:Hv; [discriminate|].
  injection Hhd as Ha.
  assert (H1 : x0.1.1 = 1).
  { destruct (seqZ 1 (epochs cfg)) as [|z zs] eqn:E; [discriminate|].
    injection Hall as -> _.
    assert (Hz : seqZ 1 (epochs cfg) !! 0%nat = Some z) by now rewrite E.
    apply lookup_seqZ in Hz. lia. }
  assert (H0 : x0.2 = Some f1).
  { destruct (Hpol [] x0 rest eq_refl) as [_ Himp].
    destruct Himp as [[f Hf] | [_ Hr]].
    - split; [now rewrite Ha|constructor].
    - apply Forall_cons in Hck as [Hc _]. unfold checkpoint_in in Hc.
      rewrite Hf in Hc. destruct Hc as [-> _]. rewrite Hf.
      unfold f1. now rewrite H1, Ha.
    - discriminate. }
  assert (Hrest : omap (fun x : Z * Q * option (list string) => x.2) rest = []).
  { assert (Hnone : Forall (fun y : Z * Q * option (list string) => y.2 = None)
                      rest).
    { apply Forall_forall. intros y Hy.
      apply list_elem_of_split in Hy as (pre & post & ->).
      destruct (y.2) as [f|] eqn:Ey; [|reflexivity]. exfalso.
      destruct (Hpol (x0 :: pre) y post eq_refl) as [Hi _].
      destruct Hi as [_ Hlt]; [rewrite Ey; eauto|].
      apply Forall_cons in Hlt as [Hlt _].
      apply (Qlt_not_le _ _ Hlt).
      apply (Hmono 0%nat (S (length pre))); [lia|reflexivity|].
      simpl. rewrite map_app, lookup_app_r by now rewrite length_map.
      rewrite length_map, Nat.sub_diag. reflexivity. }
    clear -Hnone. induction Hnone as [|y l Hy _ IH]; [reflexivity|].
    simpl. now rewrite Hy. }
  assert (Hfiles : omap (fun x : Z * Q * option (list string) => x.2)
                     (x0 :: rest) = [f1]).
  { cbn [omap list_omap]. now rewrite H0, Hrest. }
  split. { simpl. destruct x0 as [[e a] o]. simpl in *. now subst. }
  split; [exact Hfiles|].
  split. { now rewrite Hs, Hfiles. }
  split.
  { apply Forall_cons in Hck as [Hc _]. unfold checkpoint_in in Hc.
    rewrite H0 in Hc. destruct Hc as (_ & d & Hd1 & Hd2 & Hd3).
    exists d. now rewrite <- H1, <- Ha. }
  split. { now rewrite <- Hfiles. }
  rewrite (Hlast best eq_refl).
  unfold saved_accs. cbn [omap list_omap]. rewrite H0.
  replace (omap _ rest) with (@nil Q); [now simpl|].
  symmetry. clear -Hrest. induction rest as [|y l IH]; [reflexivity|].
  cbn [omap list_omap] in *. destruct (y.2); [discriminate|]. now apply IH.
Qed.

End EveryRun.

Lemma checkpoint_iff_improvement_witness :
  exists evs,
    log (tw (snd (run_epochs Scenario.cfg_flip
                    (Scenario.loader_of 4 true true Scenario.train_data)
                    (Scenario.loader_of 4 false false Scenario.val_data)
                    Scenario.s0)))
    = log (tw Scenario.s0) ++ evs /\
    map (fun x => (x.1.1, x.1.2)) (epoch_view evs)
    = [(1, (0 # 2)%Q); (2, (2 # 2)%Q); (3, (0 # 2)%Q)] /\
    Forall (checkpoint_in
              (fs (tw (snd (run_epochs Scenario.cfg_flip
                    (Scenario.loader_of 4 true true Scenario.train_data)
                    (Scenario.loader_of 4 false false Scenario.val_data)
                    Scenario.s0))))
              (output_dir Scenario.cfg_flip)) (epoch_view evs) /\
    omap (fun x => x.2) (epoch_view evs)
    = [["artifacts"; "checkpoints"; "resnet50_epoch002_acc1.000.pt"]%string].
Proof.
  destruct (run_epochs Scenario.cfg_flip
              (Scenario.loader_of 4 true true Scenario.train_data)
              (Scenario.loader_of 4 false false Scenario.val_data)
              Scenario.s0) as [r s1] eqn:E.
  destruct (checkpoint_iff_improvement _ _ _ _ _ _ E)
    as (evs & Hl & _ & _ & _ & Hck & _).
  exists evs. split; [exact Hl|].
  change (log (tw Scenario.s0) ++ evs) with evs in Hl.
  replace s1 with (snd (run_epochs Scenario.cfg_flip
              (Scenario.loader_of 4 true true Scenario.train_data)
              (Scenario.loader_of 4 false false Scenario.val_data)
              Scenario.s0)) in Hl by now rewrite E.
  split; [rewrite <- Hl; vm_compute; reflexivity|].
  split; [exact Hck|].
  rewrite <- Hl. vm_compute. reflexivity.
Defined.

(** C1 as stated fails when the checkpoint cannot be written: below, the
    path of the output directory is a regular file; the first epoch improves
    on the best accuracy, its summary is printed, and the run ends in
    [FileExistsError] with no call of [torch.save] and no file but the one
    that was there. *)
Lemma improvement_without_checkpoint :
  let '(r, s1) := run_epochs Scenario.cfg_small
                    (Scenario.loader_of 2 true true Scenario.train_data)
                    (Scenario.loader_of 2 false false Scenario.val_data)
                    Scenario.s_blocked in
  r = Raise (FileExistsError "artifacts/checkpoints") /\
  epoch_view (log (tw s1)) = [(1, (2 # 2)%Q, None)] /\
  improves 0 [] (1, (2 # 2)%Q, None) /\
  filter (fun e => is_save e) (log (tw s1)) = [] /\
  files_under (fs (tw s1)) [] = [(["artifacts"; "checkpoints"]%string, Blob)].
Proof.
  vm_compute. repeat split; try reflexivity. constructor.
Qed.

Lemma steady_accuracies : non_increasing [2 # 2; 2 # 2; 2 # 2]%Q.
Proof.
  intros i j a b _ Hi Hj.
  assert (Hall : forall k c, [2 # 2; 2 # 2; 2 # 2]%Q !! k = Some c
                             -> c = (2 # 2)%Q).
  { intros k c Hk. apply list_elem_of_lookup_2 in Hk.
    repeat (apply elem_of_cons in Hk as [Hk|Hk]; [exact Hk|]).
    now apply elem_of_nil in Hk. }
  apply Hall in Hi, Hj.
  subst. apply Qle_refl.
Qed.

Lemma first_epoch_checkpoint_only_witness :
  exists s1,
    run_epochs Scenario.cfg_small
      (Scenario.loader_of 2 true true Scenario.train_data)
      (Scenario.loader_of 2 false false Scenario.val_data)
      Scenario.s0 = (Ok (2 # 2)%Q, s1) /\
    map (fun x => x.1.2) (epoch_view (log (tw s1)))
    = [2 # 2; 2 # 2; 2 # 2]%Q /\
    non_increasing (map (fun x => x.1.2) (epoch_view (log (tw s1)))) /\
    (0 < 2 # 2)%Q /\
    filter (fun e => is_save e) (log (tw s1))
    = [EvTorchSave ["artifacts"; "checkpoints";
                    "resnet50_epoch001_acc1.000.pt"]%string] /\
    exists d,
      fs (tw s1) !! ["artifacts"; "checkpoints";
                     "resnet50_epoch001_acc1.000.pt"]%string
      = Some (File (Pickle d)) /\
      d !! "epoch"%string = Some (VInt 1) /\
      d !! "val_top1"%string = Some (VFloat (2 # 2)).
Proof.
  destruct (run_epochs Scenario.cfg_small
              (Scenario.loader_of 2 true true Scenario.train_data)
              (Scenario.loader_of 2 false false Scenario.val_data)
              Scenario.s0) as [r s1] eqn:E.
  assert (Hr : r = Ok (2 # 2)%Q)
    by (apply (f_equal fst) in E; vm_compute in E; now subst r).
  subst r. exists s1.
  assert (Hv : map (fun x => x.1.2) (epoch_view (log (tw s1)))
               = [2 # 2; 2 # 2; 2 # 2]%Q).
  { replace s1 with (snd (run_epochs Scenario.cfg_small
              (Scenario.loader_of 2 true true Scenario.train_data)
              (Scenario.loader_of 2 false false Scenario.val_data)
              Scenario.s0)) by now rewrite E.
    vm_compute. reflexivity. }
  assert (Hm : non_increasing (map (fun x => x.1.2) (epoch_view (log (tw s1)))))
    by (rewrite Hv; exact steady_accuracies).
  assert (Hp : (0 < 2 # 2)%Q) by reflexivity.
  split; [reflexivity|]. split; [exact Hv|]. split; [exact Hm|].
  split; [exact Hp|].
  destruct (first_epoch_checkpoint_only Scenario.cfg_small
              (Scenario.loader_of 2 true true Scenario.train_data)
              (Scenario.loader_of 2 false false Scenario.val_data)
              Scenario.s0 s1 (2 # 2) (log (tw s1)) (2 # 2) E)
    as (_ & _ & Hs & Hd & _).
  - reflexivity.
  - exact Hm.
  - now rewrite Hv.
  - exact Hp.
  - split; [exact Hs|exact Hd].
Defined.

(** C2 as stated fails when the first accuracy is zero: the run below has a
    single epoch, hence accuracies that never go up; it completes and
    writes no checkpoint at all. *)
Lemma no_checkpoint_at_zero_accuracy :
  let '(r, s1) := run_epochs Scenario.cfg_zero
                    (Scenario.loader_of 4 true true Scenario.train_data)
                    (Scenario.loader_of 4 false false Scenario.val_data)
                    Scenario.s0 in
  r = Ok 0%Q /\
  epoch_view (log (tw s1)) = [(1, (0 # 2)%Q, None)] /\
  filter (fun e => is_save e) (log (tw s1)) = [] /\
  files_under (fs (tw s1)) ["artifacts"%string] = [].
Proof. vm_compute. repeat split; reflexivity. Qed.
